(** * Graph convolution layers (gcn.py): a shallow embedding and its properties

    The development follows [src/gcn.py]:

    - dense tensors are a shape together with a row-major buffer, as in
      TensorFlow; the operators the layer uses ([@], [einsum], broadcasting
      [+] and [*], [expand_dims]) are embedded on that representation and
      raise [InvalidArgumentError] on incompatible shapes;
    - scalars are kept abstract (class [Scalar]), so every statement holds
      for any arithmetic; IEEE binary64 floats and the integers are the two
      instances used for concrete runs;
    - a Python method is a computation in a state-and-exception monad over
      the object it is called on ([self]);
    - [utils.normalize_adjacency] and [utils.get_degrees] are not part of
      gcn.py and are taken as parameters (class [Utils]); random
      initializers are read under a fixed outcome of their draws.

    Regularizers and constraints are stored by [__init__] and only handed
    to [add_weight]; they do not take part in the forward values and are
    left out of the records. *)

From Stdlib Require Import String Ascii.
From Stdlib Require Import List Arith Lia Bool ZArith.
From Stdlib Require Import Floats.
Import ListNotations.

Set Implicit Arguments.

(** ** Exceptions and the method monad *)

Inductive error :=
| AssertionError
| IndexError
| ValueError
| InvalidArgumentError.

Inductive result (A : Type) :=
| Ok (a : A)
| Raise (e : error).
Arguments Ok {A} a.
Arguments Raise {A} e.

(** A method of an object of type [S]: it returns or raises, and leaves
    the object in some state either way. *)
Definition M (S A : Type) := S -> result A * S.

Definition ret {S A} (a : A) : M S A := fun s => (Ok a, s).

Definition bind {S A B} (c : M S A) (k : A -> M S B) : M S B :=
  fun s => match c s with
           | (Ok a, s') => k a s'
           | (Raise e, s') => (Raise e, s')
           end.

Definition raise {S A} (e : error) : M S A := fun s => (Raise e, s).
Definition get_self {S} : M S S := fun s => (Ok s, s).
Definition modify {S} (f : S -> S) : M S unit := fun s => (Ok tt, f s).
Definition lift {S A} (r : result A) : M S A := fun s => (r, s).

Declare Scope method_scope.
Delimit Scope method_scope with method.
Notation "x <- c ;; k" := (bind c (fun x => k))
  (at level 61, c at next level, right associativity) : method_scope.
Notation "c ;; k" := (bind c (fun _ => k))
  (at level 61, right associativity) : method_scope.
Open Scope method_scope.

(** [assert b] *)
Definition assert {S} (b : bool) : M S unit :=
  if b then ret tt else raise AssertionError.

(** [l[i]] for a non-negative index. *)
Definition index {S A} (l : list A) (i : nat) : M S A :=
  match nth_error l i with
  | Some a => ret a
  | None => raise IndexError
  end.

(** [l[-1]] *)
Definition index_last {S A} (l : list A) : M S A :=
  match rev l with
  | a :: _ => ret a
  | [] => raise IndexError
  end.

(** A weight that [build] has populated; using [None] as a tensor is a
    [ValueError]. *)
Definition populated {S A} (w : option A) : M S A :=
  match w with
  | Some a => ret a
  | None => raise ValueError
  end.

(** Methods that only read the attributes of the object. *)
Definition reads_only {S A} (c : M S A) : Prop := forall s, snd (c s) = s.

(** ** Scalars *)

Class Scalar (R : Type) := {
  rzero : R;
  rone : R;
  radd : R -> R -> R;
  rmul : R -> R -> R;
  rdiv : R -> R -> R;
  rmax : R -> R -> R
}.

(** IEEE 754 binary64.  TensorFlow computes in binary32 by default; the
    infinities, the NaN and the signed zeros behave alike in both formats.
    [rmax] propagates a NaN in its first argument, as [relu] does. *)
#[export] Instance float_scalar : Scalar float := {
  rzero := 0%float;
  rone := 1%float;
  radd := PrimFloat.add;
  rmul := PrimFloat.mul;
  rdiv := PrimFloat.div;
  rmax := fun x y => if PrimFloat.ltb x y then y else x
}.

(** Exact integer arithmetic, with truncating division. *)
#[export] Instance Z_scalar : Scalar Z := {
  rzero := 0%Z;
  rone := 1%Z;
  radd := Z.add;
  rmul := Z.mul;
  rdiv := Z.div;
  rmax := Z.max
}.

(** ** Dense tensors *)

Section Tensors.
Context {R : Type} {SR : Scalar R}.

Record tensor := Tensor { shape : list nat; data : list R }.

Definition numel (sh : list nat) : nat := fold_right Nat.mul 1 sh.

(** Row-major position of a multi-index, and back. *)
Fixpoint ravel (sh idx : list nat) : nat :=
  match sh, idx with
  | _ :: sh', i :: idx' => i * numel sh' + ravel sh' idx'
  | _, _ => 0
  end.

Fixpoint unravel (sh : list nat) (k : nat) : list nat :=
  match sh with
  | [] => []
  | _ :: sh' => k / numel sh' :: unravel sh' (k mod numel sh')
  end.

Definition get (t : tensor) (idx : list nat) : R :=
  nth (ravel (shape t) idx) (data t) rzero.

Definition tabulate (sh : list nat) (f : list nat -> R) : tensor :=
  Tensor sh (map (fun k => f (unravel sh k)) (seq 0 (numel sh))).

Definition ix (idx : list nat) (k : nat) : nat := nth k idx 0.

(** Sum of [f 0 .. f (n-1)], accumulated from the left. *)
Definition sum (n : nat) (f : nat -> R) : R :=
  fold_left (fun acc k => radd acc (f k)) (seq 0 n) rzero.

Definition shape_eqb (a b : list nat) : bool :=
  if list_eq_dec Nat.eq_dec a b then true else false.

(** [a @ b] on matrices.  Batched products (rank above two) are outside
    the embedding and reported like a shape mismatch. *)
Definition matmul (a b : tensor) : result tensor :=
  match shape a, shape b with
  | [m; k], [k'; n] =>
      if k =? k' then
        Ok (tabulate [m; n] (fun idx =>
              sum k (fun l => rmul (get a [ix idx 0; l]) (get b [l; ix idx 1]))))
      else Raise InvalidArgumentError
  | _, _ => Raise InvalidArgumentError
  end.

(** *** Broadcasting element-wise operators *)

Definition bdim (x y : nat) : option nat :=
  if x =? y then Some x
  else if x =? 1 then Some y
  else if y =? 1 then Some x
  else None.

(** Shapes are aligned on their last axis: both arguments are reversed. *)
Fixpoint bshape_rev (a b : list nat) : option (list nat) :=
  match a, b with
  | [], _ => Some b
  | _, [] => Some a
  | x :: a', y :: b' =>
      match bdim x y, bshape_rev a' b' with
      | Some d, Some r => Some (d :: r)
      | _, _ => None
      end
  end.

Definition broadcast_shape (a b : list nat) : option (list nat) :=
  option_map (@rev nat) (bshape_rev (rev a) (rev b)).

Fixpoint clamp (sh idx : list nat) : list nat :=
  match sh, idx with
  | d :: sh', i :: idx' => (if d =? 1 then 0 else i) :: clamp sh' idx'
  | _, _ => []
  end.

(** The entry of [t] that lands on position [idx] of the broadcast
    result. *)
Definition bget (t : tensor) (idx : list nat) : R :=
  get t (clamp (shape t) (skipn (length idx - length (shape t)) idx)).

Definition broadcast (op : R -> R -> R) (a b : tensor) : result tensor :=
  match broadcast_shape (shape a) (shape b) with
  | Some sh => Ok (tabulate sh (fun idx => op (bget a idx) (bget b idx)))
  | None => Raise InvalidArgumentError
  end.

Definition tadd := broadcast radd.
Definition tmul := broadcast rmul.

(** [c / t] for a Python float [c]. *)
Definition scalar_div (c : R) (t : tensor) : tensor :=
  Tensor (shape t) (map (rdiv c) (data t)).

(** [tf.expand_dims(t, axis=-1)] *)
Definition expand_dims_last (t : tensor) : tensor :=
  Tensor (shape t ++ [1]) (data t).

Definition tmap (f : R -> R) (t : tensor) : tensor :=
  Tensor (shape t) (map f (data t)).

End Tensors.

Arguments tensor R : clear implicits.

(** *** Einstein summation

    [tf.einsum] for equations with an explicit output and named axes, such
    as the one the layer uses; every repeated label must name axes of one
    size.  The terms are multiplied from the left and the labels that do
    not reach the output are summed in the order of their first
    occurrence.  The source does not fix the order in which the library
    contracts three operands (it may contract two of them first): all the
    orders give one value in exact arithmetic, and values that differ by
    rounding and overflow in floating point. *)

Section Einsum.
Context {R : Type} {SR : Scalar R}.

Definition labelling := list (ascii * nat).

Fixpoint lookup (e : labelling) (c : ascii) : option nat :=
  match e with
  | [] => None
  | (c', v) :: e' => if Ascii.eqb c c' then Some v else lookup e' c
  end.

Definition value (e : labelling) (c : ascii) : nat :=
  match lookup e c with Some v => v | None => 0 end.

(** ["ij,ijf,fg->ig"] is read as [([i;j], [i;j;f], [f;g])] and [[i;g]]. *)
Fixpoint parse_subscripts (s : string) (cur : list ascii)
  : option (list (list ascii) * list ascii) :=
  match s with
  | EmptyString => None
  | String "-" (String ">" out) => Some ([rev cur], list_ascii_of_string out)
  | String "," s' =>
      match parse_subscripts s' [] with
      | Some (ops, out) => Some (rev cur :: ops, out)
      | None => None
      end
  | String c s' => parse_subscripts s' (c :: cur)
  end.

(** Every label gets the size of the axes it names; two axes with one
    label must agree. *)
Fixpoint bind_labels (labels : list ascii) (sh : list nat) (e : labelling)
  : option labelling :=
  match labels, sh with
  | [], [] => Some e
  | c :: labels', d :: sh' =>
      match lookup e c with
      | Some d' => if d =? d' then bind_labels labels' sh' e else None
      | None => bind_labels labels' sh' (e ++ [(c, d)])
      end
  | _, _ => None
  end.

Fixpoint bind_operands (subs : list (list ascii)) (ops : list (tensor R))
  (e : labelling) : option labelling :=
  match subs, ops with
  | [], [] => Some e
  | labels :: subs', t :: ops' =>
      match bind_labels labels (shape t) e with
      | Some e' => bind_operands subs' ops' e'
      | None => None
      end
  | _, _ => None
  end.

Fixpoint mentions (c : ascii) (l : list ascii) : bool :=
  match l with
  | [] => false
  | c' :: l' => Ascii.eqb c c' || mentions c l'
  end.

Fixpoint output_shape (dims : labelling) (out : list ascii) : option (list nat) :=
  match out with
  | [] => Some []
  | c :: out' =>
      match lookup dims c, output_shape dims out' with
      | Some d, Some sh => Some (d :: sh)
      | _, _ => None
      end
  end.

Definition product (l : list R) : R :=
  match l with
  | [] => rone
  | x :: l' => fold_left rmul l' x
  end.

(** The sum over every value of the labels [ls], outermost label first. *)
Fixpoint contract (ls : list ascii) (dims asg : labelling)
  (body : labelling -> R) : R :=
  match ls with
  | [] => body asg
  | c :: ls' => sum (value dims c) (fun v => contract ls' dims ((c, v) :: asg) body)
  end.

Definition einsum (equation : string) (operands : list (tensor R))
  : result (tensor R) :=
  match parse_subscripts equation [] with
  | None => Raise InvalidArgumentError
  | Some (subs, out) =>
      match bind_operands subs operands [] with
      | None => Raise InvalidArgumentError
      | Some dims =>
          match output_shape dims out with
          | None => Raise InvalidArgumentError
          | Some osh =>
              let summed := filter (fun c => negb (mentions c out)) (map fst dims) in
              Ok (tabulate osh (fun idx =>
                    contract summed dims (combine out idx) (fun asg =>
                      product (map (fun '(labels, t) => get t (map (value asg) labels))
                                   (combine subs operands)))))
          end
      end
  end.

End Einsum.

(** ** Collaborators that gcn.py imports *)

(** An initializer, under a fixed outcome of its random draws: the entries
    it produces for the weight of a given name and shape. *)
Definition initializer (R : Type) := string -> list nat -> list R.

Definition zeros {R} {SR : Scalar R} : initializer R :=
  fun _ sh => repeat rzero (numel sh).

(** [utils.normalize_adjacency] and [utils.get_degrees], whose code is not
    in gcn.py, and the outcome of Keras' ['glorot_uniform'] initializer for
    the [n]-th layer created. *)
Class Utils (R : Type) := {
  normalize_adjacency : tensor R -> bool -> tensor R;
  get_degrees : tensor R -> tensor R;
  glorot_uniform : nat -> initializer R
}.

Inductive activation_fn := linear | relu.

Definition apply_activation {R} {SR : Scalar R} (f : activation_fn)
  (t : tensor R) : tensor R :=
  match f with
  | linear => t
  | relu => tmap (fun x => rmax x rzero) t
  end.

(** ** class GraphConvolution *)

Module GraphConvolution.
Section Layer.
Context {R : Type} {SR : Scalar R} {U : Utils R}.

(** The attributes [__init__] sets, and [built] of the Keras base class. *)
Record layer := Layer {
  F_ : nat;
  auto_normalize : bool;
  rooted_subtree : bool;
  activation : activation_fn;
  use_bias : bool;
  kernel_initializer : initializer R;
  bias_initializer : initializer R;
  kernel : option (tensor R);
  bias : option (tensor R);
  rooted_kernel : option (tensor R);
  edge_kernel : option (tensor R);
  built : bool
}.

Definition __init__ (F_ : nat) (auto_normalize rooted_subtree : bool)
  (activation : activation_fn) (use_bias : bool)
  (kernel_initializer bias_initializer : initializer R) : layer :=
  {| F_ := F_;
     auto_normalize := auto_normalize;
     rooted_subtree := rooted_subtree;
     activation := activation;
     use_bias := use_bias;
     kernel_initializer := kernel_initializer;
     bias_initializer := bias_initializer;
     kernel := None;
     bias := None;
     rooted_kernel := None;
     edge_kernel := None;
     built := false |}.

Definition set_kernel (w : tensor R) (self : layer) : layer :=
  Layer (F_ self) (auto_normalize self) (rooted_subtree self) (activation self)
    (use_bias self) (kernel_initializer self) (bias_initializer self)
    (Some w) (bias self) (rooted_kernel self) (edge_kernel self) (built self).

Definition set_bias (w : tensor R) (self : layer) : layer :=
  Layer (F_ self) (auto_normalize self) (rooted_subtree self) (activation self)
    (use_bias self) (kernel_initializer self) (bias_initializer self)
    (kernel self) (Some w) (rooted_kernel self) (edge_kernel self) (built self).

Definition set_rooted_kernel (w : tensor R) (self : layer) : layer :=
  Layer (F_ self) (auto_normalize self) (rooted_subtree self) (activation self)
    (use_bias self) (kernel_initializer self) (bias_initializer self)
    (kernel self) (bias self) (Some w) (edge_kernel self) (built self).

Definition set_edge_kernel (w : tensor R) (self : layer) : layer :=
  Layer (F_ self) (auto_normalize self) (rooted_subtree self) (activation self)
    (use_bias self) (kernel_initializer self) (bias_initializer self)
    (kernel self) (bias self) (rooted_kernel self) (Some w) (built self).

Definition set_built (b : bool) (self : layer) : layer :=
  Layer (F_ self) (auto_normalize self) (rooted_subtree self) (activation self)
    (use_bias self) (kernel_initializer self) (bias_initializer self)
    (kernel self) (bias self) (rooted_kernel self) (edge_kernel self) b.

Definition add_weight (shape : list nat) (initializer : initializer R)
  (name : string) : tensor R :=
  Tensor shape (initializer name shape).

Definition build (input_shape : list (list nat)) : M layer unit :=
  assert ((length input_shape =? 2) || (length input_shape =? 3)) ;;
  s0 <- index input_shape 0 ;;
  F <- index_last s0 ;;
  self <- get_self ;;
  modify (set_kernel (add_weight [F; F_ self] (kernel_initializer self) "kernel")) ;;
  (if use_bias self
   then modify (set_bias (add_weight [F_ self] (bias_initializer self) "bias"))
   else ret tt) ;;
  (if rooted_subtree self
   then modify (set_rooted_kernel
                  (add_weight [F; F_ self] (kernel_initializer self) "rooted_kernel"))
   else ret tt) ;;
  (if length input_shape =? 3 then
     s2 <- index input_shape 2 ;;
     if negb (shape_eqb s2 [0]) then
       F_edge <- index_last s2 ;;
       modify (set_edge_kernel
                 (add_weight [F_edge; F_ self] (kernel_initializer self) "edge_kernel"))
     else ret tt
   else ret tt).

(** Lines 94 to 107 of [call]: the value the activation is applied to. *)
Definition pre_activation (inputs : list (tensor R)) : M layer (tensor R) :=
  self <- get_self ;;
  X <- index inputs 0 ;;
  A <- index inputs 1 ;;
  let A := if auto_normalize self
           then normalize_adjacency A (rooted_subtree self) else A in
  AX <- lift (matmul A X) ;;
  kernel <- populated (kernel self) ;;
  y <- lift (matmul AX kernel) ;;
  y <- (if rooted_subtree self then
          let D := get_degrees A in
          let Dinv := scalar_div rone D in
          rooted_kernel <- populated (rooted_kernel self) ;;
          XR <- lift (matmul X rooted_kernel) ;;
          root <- lift (tmul (expand_dims_last Dinv) XR) ;;
          lift (tadd y root)
        else ret y) ;;
  y <- (match edge_kernel self with
        | Some edge_kernel =>
            Z <- index inputs 2 ;;
            edge <- lift (einsum "ij,ijf,fg->ig" [A; Z; edge_kernel]) ;;
            lift (tadd y edge)
        | None => ret y
        end) ;;
  (if use_bias self then
     bias <- populated (bias self) ;;
     lift (tadd y bias)
   else ret y).

Definition call (inputs : list (tensor R)) : M layer (tensor R) :=
  y <- pre_activation inputs ;;
  self <- get_self ;;
  ret (apply_activation (activation self) y).

(** Keras' [Layer.__call__]: the first application builds the weights from
    the shapes of its inputs. *)
Definition __call__ (inputs : list (tensor R)) : M layer (tensor R) :=
  self <- get_self ;;
  (if built self then ret tt
   else build (map (@shape R) inputs) ;; modify (set_built true)) ;;
  call inputs.

End Layer.

Arguments layer R : clear implicits.

End GraphConvolution.

(** ** class StackedGraphConvolution *)

Module StackedGraphConvolution.
Section Model.
Context {R : Type} {SR : Scalar R} {U : Utils R}.

Record model := Model {
  num_layers : nat;
  last_layer_only : bool;
  gc_layers : list (GraphConvolution.layer R);
  activation : activation_fn;
  rooted_subtree : bool
}.

(** [GraphConvolution(num_features, activation='linear',
    rooted_subtree=rooted_subtree)], the other arguments at their defaults. *)
Definition new_layer (num_features : nat) (rooted_subtree : bool) (n : nat)
  : GraphConvolution.layer R :=
  GraphConvolution.__init__ num_features false rooted_subtree linear true
    (glorot_uniform n) zeros.

Definition __init__ (num_layers num_features : nat)
  (last_layer_only rooted_subtree : bool) : model :=
  {| num_layers := num_layers;
     last_layer_only := last_layer_only;
     gc_layers := map (new_layer num_features rooted_subtree) (seq 0 num_layers);
     activation := relu;
     rooted_subtree := rooted_subtree |}.

Definition vocab_size : M model nat :=
  self <- get_self ;;
  if last_layer_only self then ret 1 else ret (num_layers self).

Fixpoint replace_nth {A} (n : nat) (a : A) (l : list A) : list A :=
  match n, l with
  | _, [] => []
  | 0, _ :: l' => a :: l'
  | S n', b :: l' => b :: replace_nth n' a l'
  end.

Definition set_gc_layers (ls : list (GraphConvolution.layer R)) (self : model)
  : model :=
  Model (num_layers self) (last_layer_only self) ls (activation self)
    (rooted_subtree self).

(** A method call on [self.gc_layers[index]]. *)
Definition on_layer {A} (index : nat) (c : M (GraphConvolution.layer R) A)
  : M model A :=
  fun self =>
    match nth_error (gc_layers self) index with
    | Some l =>
        let (r, l') := c l in
        (r, set_gc_layers (replace_nth index l' (gc_layers self)) self)
    | None => (Raise IndexError, self)
    end.

(** The body of the [for] loop of [call], over the indices still to visit. *)
Fixpoint for_layers (indices : list nat) (A : tensor R) (extra : list (tensor R))
  (x : tensor R) (outputs : list (tensor R)) : M model (list (tensor R)) :=
  match indices with
  | [] => ret outputs
  | index :: rest =>
      x <- on_layer index (GraphConvolution.__call__ ([x; A] ++ extra)) ;;
      self <- get_self ;;
      let outputs :=
        if negb (last_layer_only self)
           || (index + 1 =? length (gc_layers self))
        then outputs ++ [x] else outputs in
      let x := apply_activation (activation self) x in
      for_layers rest A extra x outputs
  end.

Definition call (inputs : list (tensor R)) : M model (list (tensor R)) :=
  self <- get_self ;;
  x <- index inputs 0 ;;
  A <- index inputs 1 ;;
  let A := normalize_adjacency A (rooted_subtree self) in
  for_layers (seq 0 (length (gc_layers self))) A (skipn 2 inputs) x [].

End Model.

Arguments model R : clear implicits.

End StackedGraphConvolution.

(** ** The forward value of a layer, entry by entry

    [spec_output] writes the forward computation of a layer the way the
    specification words it: the neighbour aggregation [A @ X @ kernel],
    plus the root term, plus the edge term, plus the bias.  The lemma
    [pre_activation_spec] shows that the code computes it. *)

Section Formula.
Import GraphConvolution.
Context {R : Type} {SR : Scalar R} {U : Utils R}.

(** The multi-indices of a tensor of shape [sh]. *)
Definition valid (sh idx : list nat) : Prop := Forall2 lt idx sh.

(** A tensor whose buffer has the size its shape announces. *)
Definition wf (t : tensor R) : Prop := length (data t) = numel (shape t).

(** The adjacency matrix the aggregation runs on. *)
Definition adjacency_used (self : layer R) (A : tensor R) : tensor R :=
  if auto_normalize self then normalize_adjacency A (rooted_subtree self) else A.

(** Entry [i, c] of [X @ W] for [X] of [f] columns. *)
Definition projected (X W : tensor R) (f : nat) (idx : list nat) : R :=
  sum f (fun k => rmul (get X [ix idx 0; k]) (get W [k; ix idx 1])).

(** Entry [i, c] of [A @ X @ K]. *)
Definition aggregated (A X K : tensor R) (n f : nat) (idx : list nat) : R :=
  sum f (fun k =>
    rmul (sum n (fun j => rmul (get A [ix idx 0; j]) (get X [j; k])))
         (get K [k; ix idx 1])).

(** [(1 / D[i]) * (X @ rooted_kernel)[i, c]] *)
Definition root_term (D X RK : tensor R) (f : nat) (idx : list nat) : R :=
  rmul (rdiv rone (get D [ix idx 0])) (projected X RK f idx).

(** [sum_j sum_e A[i,j] * Z[i,j,e] * edge_kernel[e,c]] *)
Definition edge_term (A Z EK : tensor R) (n fe : nat) (idx : list nat) : R :=
  sum n (fun j => sum fe (fun e =>
    rmul (rmul (get A [ix idx 0; j]) (get Z [ix idx 0; j; e]))
         (get EK [e; ix idx 1]))).

Definition no_tensor : tensor R := Tensor [0] [].

Definition with_root (self : layer R) (A X : tensor R) (f : nat)
  (y : list nat -> R) (idx : list nat) : R :=
  match rooted_subtree self, rooted_kernel self with
  | true, Some RK => radd (y idx) (root_term (get_degrees A) X RK f idx)
  | _, _ => y idx
  end.

Definition with_edge (self : layer R) (A Z : tensor R) (n : nat)
  (y : list nat -> R) (idx : list nat) : R :=
  match edge_kernel self with
  | Some EK => radd (y idx) (edge_term A Z EK n (nth 2 (shape Z) 0) idx)
  | None => y idx
  end.

Definition with_bias (self : layer R) (y : list nat -> R) (idx : list nat) : R :=
  match use_bias self, bias self with
  | true, Some b => radd (y idx) (get b [ix idx 1])
  | _, _ => y idx
  end.

Definition spec_output (self : layer R) (inputs : list (tensor R)) (n f : nat)
  : list nat -> R :=
  let X := nth 0 inputs no_tensor in
  let A := adjacency_used self (nth 1 inputs no_tensor) in
  let Z := nth 2 inputs no_tensor in
  let K := match kernel self with Some K => K | None => no_tensor end in
  with_bias self (with_edge self A Z n (with_root self A X f (aggregated A X K n f))).

(** The shapes under which the forward computation is defined: [n] nodes,
    [f] input features, [g] output features. *)
Record well_shaped (self : layer R) (inputs : list (tensor R)) (n f g : nat)
  : Prop := {
  ws_X : exists X, nth_error inputs 0 = Some X /\ shape X = [n; f];
  ws_A : exists A, nth_error inputs 1 = Some A
                   /\ shape (adjacency_used self A) = [n; n];
  ws_kernel : exists K, kernel self = Some K /\ shape K = [f; g];
  ws_root : rooted_subtree self = true ->
            (exists RK, rooted_kernel self = Some RK /\ shape RK = [f; g])
            /\ forall A, nth_error inputs 1 = Some A ->
                 shape (get_degrees (adjacency_used self A)) = [n]
                 /\ wf (get_degrees (adjacency_used self A));
  ws_edge : forall EK, edge_kernel self = Some EK ->
            exists Z fe, nth_error inputs 2 = Some Z
                         /\ shape Z = [n; n; fe] /\ shape EK = [fe; g];
  ws_bias : use_bias self = true ->
            exists b, bias self = Some b /\ shape b = [g]
}.

(** The number of inputs [build] accepts. *)
Definition arity_ok (input_shape : list (list nat)) : Prop :=
  length input_shape = 2 \/ length input_shape = 3.

(** The same layer with [rooted_subtree] disabled: same kernel, bias and
    activation. *)
Definition unrooted (self : layer R) : layer R :=
  Layer (F_ self) (auto_normalize self) false (activation self)
    (use_bias self) (kernel_initializer self) (bias_initializer self)
    (kernel self) (bias self) (rooted_kernel self) (edge_kernel self)
    (built self).

End Formula.

(** ** Zero weights

    Whether a product with a zero weight is again a zero depends on the
    arithmetic: in IEEE arithmetic the product of an infinity or a NaN with
    zero is a NaN.  [finite] singles out the scalars a zero absorbs, and
    [is_zero] the zeros (of either sign). *)

Class ZeroLaws (R : Type) {SR : Scalar R} := {
  finite : R -> Prop;
  is_zero : R -> Prop;
  zero_is_zero : is_zero rzero;
  add_zero : forall a b, is_zero a -> is_zero b -> is_zero (radd a b);
  mul_zero : forall a b, finite a -> is_zero b -> is_zero (rmul a b)
}.
Arguments ZeroLaws R {SR}.

Definition float_finite (x : float) : Prop :=
  match Prim2SF x with
  | S754_zero _ | S754_finite _ _ _ => True
  | _ => False
  end.

Definition float_is_zero (x : float) : Prop :=
  match Prim2SF x with
  | S754_zero _ => True
  | _ => False
  end.

Section ZeroWeights.
Import GraphConvolution.
Context {R : Type} {SR : Scalar R} {U : Utils R} {ZL : ZeroLaws R}.

(** Every entry of the weight, if it exists, is [rzero]. *)
Definition all_zero (w : option (tensor R)) : Prop :=
  forall t, w = Some t -> Forall (eq rzero) (data t).


(** An arithmetic without overflow: zero is finite, and sums and products
    of finite scalars are finite, as on the integers, the rationals or the
    reals.  Binary64 is not one: a sum or a product of finite numbers can
    be an infinity. *)
Definition no_overflow : Prop :=
  finite rzero
  /\ forall a b : R, finite a -> finite b ->
       finite (radd a b) /\ finite (rmul a b).



End ZeroWeights.

(** ** The outputs of a stack *)

Section StackSpec.
Context {R : Type} {SR : Scalar R} {U : Utils R}.

(** The extra inputs a layer accepts: none, or one tensor of edge features
    of shape [(n, n, fe)], or the sentinel of shape [(0,)]. *)
Definition extra_ok (n : nat) (extra : list (tensor R)) : Prop :=
  extra = []
  \/ exists Z, extra = [Z] /\ (shape Z = [0] \/ exists fe, shape Z = [n; n; fe]).

(** [ys] are the outputs of [layers] run in sequence from the features
    [x]: each layer returns its own output, and the next layer reads the
    ReLU of it. *)
Fixpoint chained (layers : list (GraphConvolution.layer R)) (A : tensor R)
  (extra : list (tensor R)) (x : tensor R) (ys : list (tensor R)) : Prop :=
  match layers, ys with
  | [], [] => True
  | l :: layers', y :: ys' =>
      GraphConvolution.call ([x; A] ++ extra) l = (Ok y, l)
      /\ chained layers' A extra (apply_activation relu y) ys'
  | _, _ => False
  end.

(** A layer of the stack that can be applied to [n] nodes of [fin]
    features: it is as the constructor made it, or it has been built on
    inputs of these shapes. *)
Definition layer_ready (rooted : bool) (F n fin : nat) (A : tensor R)
  (extra : list (tensor R)) (l : GraphConvolution.layer R) : Prop :=
  (exists k, l = StackedGraphConvolution.new_layer F rooted k)
  \/ (GraphConvolution.built l = true
      /\ GraphConvolution.activation l = linear
      /\ forall x, shape x = [n; fin] ->
           well_shaped l ([x; A] ++ extra) n fin F).

(** The first layer reads [fin] features, the others the [F] features of
    the layer before. *)
Fixpoint stack_ready (rooted : bool) (F n fin : nat) (A : tensor R)
  (extra : list (tensor R)) (layers : list (GraphConvolution.layer R)) : Prop :=
  match layers with
  | [] => True
  | l :: layers' =>
      layer_ready rooted F n fin A extra l
      /\ stack_ready rooted F n F A extra layers'
  end.

(** The outputs kept under the selection policy. *)
Definition kept (last_layer_only : bool) (ys : list (tensor R))
  : list (tensor R) :=
  if last_layer_only
  then match ys with [] => [] | _ => [last ys no_tensor] end
  else ys.

End StackSpec.

(** ** Instances for concrete runs *)

Section Concrete.
Context {R : Type} {SR : Scalar R}.

(** Modelled from the spec: [utils.get_degrees] is not in gcn.py; the
    specification gives the degree of a node as the row sum of the
    adjacency matrix. *)
Definition row_sums (A : tensor R) : tensor R :=
  match shape A with
  | [n; m] => tabulate [n] (fun idx => sum m (fun j => get A [ix idx 0; j]))
  | _ => no_tensor
  end.

(** Modelled from the spec: [utils.normalize_adjacency] is not in gcn.py;
    the specification leaves the normalisation open (symmetric or row
    normalisation).  Row normalisation is taken here. *)
Definition row_normalize (A : tensor R) (rooted_subtree : bool) : tensor R :=
  match shape A with
  | [n; m] =>
      tabulate [n; m] (fun idx => rdiv (get A idx) (get (row_sums A) [ix idx 0]))
  | _ => A
  end.

Definition of_nat (k : nat) : R := sum k (fun _ => rone).

(** One outcome of the random draws: the entries 1, 2, 3, 1, ... shifted
    by the number of the layer and the length of the name of the weight. *)
Definition drawn (n : nat) : initializer R :=
  fun name sh =>
    map (fun k => of_nat (1 + (k + n + String.length name) mod 3))
        (seq 0 (numel sh)).

Definition spec_utils : Utils R :=
  {| normalize_adjacency := row_normalize;
     get_degrees := row_sums;
     glorot_uniform := drawn |}.

End Concrete.

(** A graph of two nodes joined by one edge, two features per node, one
    feature per edge, in binary64. *)
Definition X2 : tensor float := Tensor [2; 2] [1; 2; 3; 4]%float.
Definition A2 : tensor float := Tensor [2; 2] [0; 1; 1; 0]%float.
Definition Z2 : tensor float := Tensor [2; 2; 1] [5; 6; 7; 8]%float.


(** The same graph over the integers, where addition is associative. *)
Definition XZ : tensor Z := Tensor [2; 2] [1; 2; 3; 4]%Z.
Definition AZ : tensor Z := Tensor [2; 2] [0; 1; 1; 0]%Z.
Definition ZZ : tensor Z := Tensor [2; 2; 1] [5; 6; 7; 8]%Z.


Definition float_utils : Utils float := spec_utils.
Definition Z_utils : Utils Z := spec_utils.

Section Layers.
Import GraphConvolution.
#[local] Existing Instance float_utils.
#[local] Existing Instance Z_utils.

(** Three output features, built on [[X2; A2]]: no bias, no root term. *)
Definition plain_layer : layer float :=
  snd (build [[2; 2]; [2; 2]]
         (__init__ 3 false false linear false (drawn 0) zeros)).

(** Bias, root term and edge kernel, built on [[X2; A2; Z2]]. *)
Definition full_layer : layer float :=
  snd (build [[2; 2]; [2; 2]; [2; 2; 1]]
         (__init__ 3 false true linear true (drawn 0) zeros)).


(** Over the integers, with a bias that is not zero. *)
Definition rooted_layer : layer Z :=
  snd (build [[2; 2]; [2; 2]; [2; 2; 1]]
         (__init__ 3 false true linear true (drawn 0) (drawn 1))).

End Layers.

(** The sentinel that stands for "no edge features". *)
Definition Z0 : tensor float := Tensor [0] [].

(** Three features per node, and an adjacency for three nodes: neither fits
    a layer built on [[X2; A2]]. *)
Definition X_wide : tensor float := Tensor [2; 3] [1; 2; 3; 4; 5; 6]%float.
Definition A3 : tensor float :=
  Tensor [3; 3] [0; 1; 0; 1; 0; 1; 0; 1; 0]%float.

Section Stacks.
Import GraphConvolution.
#[local] Existing Instance float_utils.

(** A layer fresh from the constructor: no weight yet. *)
Definition fresh_layer : layer float :=
  __init__ 3 false false linear false (drawn 0) zeros.

(** A stack of two rooted layers of three features, and what a first call
    on [[X2; A2; Z2]] leaves of it. *)
Definition fresh_stack (last_layer_only : bool)
  : StackedGraphConvolution.model float :=
  StackedGraphConvolution.__init__ 2 3 last_layer_only true.

Definition built_stack (last_layer_only : bool)
  : StackedGraphConvolution.model float :=
  snd (StackedGraphConvolution.call [X2; A2; Z2] (fresh_stack last_layer_only)).

End Stacks.

(** ** Configuration and frames *)

(** A method that leaves the observation [f] of the object as it was,
    whether it returns or raises. *)
Definition keeps {S A T} (f : S -> T) (c : M S A) : Prop :=
  forall s, f (snd (c s)) = f s.

Section Configuration.
Context {R : Type}.

(** What [GraphConvolution.__init__] fixes. *)
Definition configuration (self : GraphConvolution.layer R) :=
  (GraphConvolution.F_ self,
   GraphConvolution.auto_normalize self,
   GraphConvolution.rooted_subtree self,
   GraphConvolution.activation self,
   GraphConvolution.use_bias self,
   GraphConvolution.kernel_initializer self,
   GraphConvolution.bias_initializer self).

(** What [StackedGraphConvolution.__init__] fixes, with the configuration
    of every layer. *)
Definition stack_configuration (self : StackedGraphConvolution.model R) :=
  (StackedGraphConvolution.num_layers self,
   StackedGraphConvolution.last_layer_only self,
   StackedGraphConvolution.activation self,
   StackedGraphConvolution.rooted_subtree self,
   map configuration (StackedGraphConvolution.gc_layers self)).

(** The same stack under the other output-selection policy. *)
Definition with_last_layer_only (b : bool)
  (self : StackedGraphConvolution.model R) : StackedGraphConvolution.model R :=
  StackedGraphConvolution.Model (StackedGraphConvolution.num_layers self) b
    (StackedGraphConvolution.gc_layers self)
    (StackedGraphConvolution.activation self)
    (StackedGraphConvolution.rooted_subtree self).

End Configuration.

(** * Properties *)

(** ** Indexing *)

Section TensorFacts.
Context {R : Type} {SR : Scalar R}.

Lemma valid2 m n i j : i < m -> j < n -> valid [m; n] [i; j].
Proof. intros; repeat constructor; assumption. Qed.

Lemma valid2_inv m n idx :
  valid [m; n] idx -> exists i j, idx = [i; j] /\ i < m /\ j < n.
Proof.
  intros H. inversion H as [|i ? l1 ? Hi H1]; subst.
  inversion H1 as [|j ? l2 ? Hj H2]; subst.
  inversion H2; subst. exists i, j. auto.
Qed.

Lemma ravel_lt sh : forall idx, valid sh idx -> ravel sh idx < numel sh.
Proof.
  induction sh as [|d sh IH]; intros idx H; inversion H; subst; simpl.
  - lia.
  - specialize (IH _ H4). nia.
Qed.

Lemma unravel_ravel sh : forall idx, valid sh idx -> unravel sh (ravel sh idx) = idx.
Proof.
  induction sh as [|d sh IH]; intros idx H; inversion H; subst; simpl.
  - reflexivity.
  - pose proof (ravel_lt H4) as Hlt.
    assert (numel sh <> 0) by lia.
    rewrite Nat.div_add_l, Nat.div_small, Nat.add_0_r by assumption.
    rewrite Nat.add_comm, Nat.Div0.mod_add, Nat.mod_small by assumption.
    rewrite IH by assumption. reflexivity.
Qed.

Lemma unravel_valid sh : forall k, k < numel sh -> valid sh (unravel sh k).
Proof.
  induction sh as [|d sh IH]; intros k H; simpl in *.
  - constructor.
  - assert (numel sh <> 0) by nia.
    constructor.
    + apply Nat.Div0.div_lt_upper_bound. nia.
    + apply IH. apply Nat.mod_upper_bound. assumption.
Qed.

Lemma nth_map_seq (f : nat -> R) n k d :
  k < n -> nth k (map f (seq 0 n)) d = f k.
Proof.
  intros H. rewrite (nth_indep _ d (f 0)) by (rewrite length_map, length_seq; exact H).
  rewrite map_nth, seq_nth by exact H. reflexivity.
Qed.

Lemma get_tabulate sh (f : list nat -> R) idx : valid sh idx -> get (tabulate sh f) idx = f idx.
Proof.
  intros H. unfold get, tabulate. simpl.
  rewrite nth_map_seq by (apply ravel_lt; exact H).
  rewrite unravel_ravel by exact H. reflexivity.
Qed.

Lemma tabulate_ext sh (f g : list nat -> R) :
  (forall idx, valid sh idx -> f idx = g idx) -> tabulate sh f = tabulate sh g.
Proof.
  intros H. unfold tabulate. f_equal. apply map_ext_in.
  intros k Hk. apply in_seq in Hk. apply H, unravel_valid. lia.
Qed.

Lemma wf_tabulate sh (f : list nat -> R) : wf (tabulate sh f).
Proof. unfold wf, tabulate. simpl. rewrite length_map, length_seq. reflexivity. Qed.

Lemma sum_ext n (f g : nat -> R) : (forall k, k < n -> f k = g k) -> sum n f = sum n g.
Proof.
  unfold sum. generalize (@rzero R SR).
  assert (G : forall l r, (forall k, In k l -> f k = g k) ->
            fold_left (fun acc k => radd acc (f k)) l r
            = fold_left (fun acc k => radd acc (g k)) l r).
  { induction l as [|a l IH]; intros r Hl; simpl; [reflexivity|].
    rewrite (Hl a) by (left; reflexivity). apply IH.
    intros k Hk. apply Hl. right. exact Hk. }
  intros r H. apply G. intros k Hk. apply in_seq in Hk. apply H. lia.
Qed.


End TensorFacts.

(** ** The tensor operators on the shapes the layer uses *)

Section OperatorFacts.
Context {R : Type} {SR : Scalar R}.

Lemma matmul_shapes (a b : tensor R) m k n :
  shape a = [m; k] -> shape b = [k; n] ->
  matmul a b =
  Ok (tabulate [m; n] (fun idx =>
        sum k (fun l => rmul (get a [ix idx 0; l]) (get b [l; ix idx 1])))).
Proof.
  intros Ha Hb. unfold matmul. rewrite Ha, Hb, Nat.eqb_refl. reflexivity.
Qed.

Lemma bdim_refl n : bdim n n = Some n.
Proof. unfold bdim. rewrite Nat.eqb_refl. reflexivity. Qed.

Lemma bdim_1_l n : bdim 1 n = Some n.
Proof.
  unfold bdim. destruct (Nat.eqb_spec 1 n) as [E|E]; [rewrite E|]; reflexivity.
Qed.

Lemma clamp_valid sh : forall idx, valid sh idx -> clamp sh idx = idx.
Proof.
  induction sh as [|d sh IH]; intros idx H; inversion H; subst; simpl.
  - reflexivity.
  - rewrite IH by assumption.
    destruct (Nat.eqb_spec d 1); [f_equal; lia | reflexivity].
Qed.

Lemma bget_same (t : tensor R) idx :
  valid (shape t) idx -> bget t idx = get t idx.
Proof.
  intros H. unfold bget.
  rewrite (Forall2_length H), Nat.sub_diag. simpl.
  rewrite clamp_valid by exact H. reflexivity.
Qed.

(** [a + b] and [a * b] on two matrices of one shape. *)
Lemma broadcast_same op (a b : tensor R) m n :
  shape a = [m; n] -> shape b = [m; n] ->
  broadcast op a b =
  Ok (tabulate [m; n] (fun idx => op (get a idx) (get b idx))).
Proof.
  intros Ha Hb. unfold broadcast, broadcast_shape. rewrite Ha, Hb. simpl.
  rewrite !bdim_refl. simpl. f_equal. apply tabulate_ext. intros idx H.
  rewrite !bget_same by (rewrite ?Ha, ?Hb; exact H). reflexivity.
Qed.

(** [y + bias]: the vector is added to every row. *)
Lemma broadcast_row op (a b : tensor R) m n :
  shape a = [m; n] -> shape b = [n] ->
  broadcast op a b =
  Ok (tabulate [m; n] (fun idx => op (get a idx) (get b [ix idx 1]))).
Proof.
  intros Ha Hb. unfold broadcast, broadcast_shape. rewrite Ha, Hb. simpl.
  rewrite bdim_refl. simpl. f_equal. apply tabulate_ext. intros idx H.
  rewrite bget_same by (rewrite Ha; exact H).
  destruct (valid2_inv H) as (i & j & -> & Hi & Hj).
  unfold bget. rewrite Hb. simpl.
  destruct (Nat.eqb_spec n 1); [|reflexivity].
  replace j with 0 by lia. reflexivity.
Qed.

(** [expand_dims(d, -1) * x]: row [i] of [x] is scaled by [d[i]]. *)
Lemma broadcast_column op (d x : tensor R) m n :
  shape d = [m] -> shape x = [m; n] ->
  broadcast op (expand_dims_last d) x =
  Ok (tabulate [m; n] (fun idx => op (get d [ix idx 0]) (get x idx))).
Proof.
  intros Hd Hx. unfold broadcast, broadcast_shape. simpl. rewrite Hd, Hx. simpl.
  rewrite bdim_1_l, bdim_refl. simpl. f_equal. apply tabulate_ext. intros idx H.
  rewrite (bget_same x) by (rewrite Hx; exact H).
  destruct (valid2_inv H) as (i & j & -> & Hi & Hj).
  unfold bget, get. simpl. rewrite Hd. simpl.
  replace (if m =? 1 then 0 else i) with i
    by (destruct (Nat.eqb_spec m 1); lia).
  reflexivity.
Qed.

Lemma get_scalar_div c (t : tensor R) m i :
  shape t = [m] -> wf t -> i < m ->
  get (scalar_div c t) [i] = rdiv c (get t [i]).
Proof.
  intros Hs Hw Hi. unfold get, scalar_div. simpl. rewrite Hs. simpl.
  unfold wf in Hw. rewrite Hs in Hw. simpl in Hw.
  rewrite (nth_indep _ rzero (rdiv c rzero)) by (rewrite length_map; lia).
  apply map_nth.
Qed.

(** The contraction [ij,ijf,fg->ig]. *)
Lemma einsum_ij_ijf_fg (a z k : tensor R) n m fe g :
  shape a = [n; m] -> shape z = [n; m; fe] -> shape k = [fe; g] ->
  einsum "ij,ijf,fg->ig" [a; z; k] =
  Ok (tabulate [n; g] (fun idx =>
        sum m (fun j => sum fe (fun f =>
          rmul (rmul (get a [ix idx 0; j]) (get z [ix idx 0; j; f]))
               (get k [f; ix idx 1]))))).
Proof.
  intros Ha Hz Hk. unfold einsum. simpl. rewrite Ha, Hz, Hk. simpl.
  repeat (rewrite Nat.eqb_refl; simpl).
  reflexivity.
Qed.

End OperatorFacts.

(** ** The forward value of a layer *)

Section FormulaFacts.
Import GraphConvolution.
Context {R : Type} {SR : Scalar R} {U : Utils R}.

Lemma nth_error_nth' {A} (l : list A) k a d : nth_error l k = Some a -> nth k l d = a.
Proof. intros H. apply nth_error_nth. exact H. Qed.

Lemma pre_activation_spec (self : layer R) inputs n f g :
  well_shaped self inputs n f g ->
  pre_activation inputs self
  = (Ok (tabulate [n; g] (spec_output self inputs n f)), self).
Proof.
  intros [(X & HX & sX) (A & HA & sA) (K & HK & sK) Hroot Hedge Hbias].
  unfold pre_activation, spec_output, bind, get_self, index, lift, populated, ret.
  rewrite HX, HA, HK.
  rewrite (nth_error_nth' _ _ no_tensor HX), (nth_error_nth' _ _ no_tensor HA).
  fold (adjacency_used self A). set (A' := adjacency_used self A) in *.
  rewrite (matmul_shapes A' X sA sX).
  rewrite (@matmul_shapes _ _ (tabulate [n; f] _) K n f g eq_refl sK).
  set (y0 := tabulate [n; g] _).
  assert (E0 : y0 = tabulate [n; g] (aggregated A' X K n f)).
  { apply tabulate_ext. intros idx H.
    destruct (valid2_inv H) as (i & c & -> & Hi & Hc).
    apply sum_ext. intros k Hk.
    rewrite get_tabulate by (apply valid2; assumption). reflexivity. }
  rewrite E0. clear E0 y0.
  assert (HD : rooted_subtree self = true ->
               shape (get_degrees A') = [n] /\ wf (get_degrees A')).
  { intros Er. apply (proj2 (Hroot Er) A HA). }
  unfold with_bias, with_edge, with_root. clearbody A'.
  destruct (rooted_subtree self) eqn:Er;
    [ destruct (proj1 (Hroot eq_refl)) as (RK & HRK & sRK);
      destruct (HD eq_refl) as [sD wD];
      rewrite HRK, (matmul_shapes X RK sX sRK); unfold tmul |];
  (destruct (edge_kernel self) as [EK|] eqn:Ee;
    [ destruct (Hedge _ eq_refl) as (Z & fe & HZ & sZ & sEK);
      rewrite HZ, (nth_error_nth' _ _ no_tensor HZ), sZ,
        (einsum_ij_ijf_fg A' Z EK sA sZ sEK) |]);
  (destruct (use_bias self) eqn:Eb;
    [ destruct (Hbias eq_refl) as (b & Hb & sb); rewrite Hb |]);
  unfold tadd;
  repeat first
    [ rewrite (@broadcast_column _ _ rmul (scalar_div rone (get_degrees A'))
                 (tabulate [n; g] _) n g sD eq_refl)
    | rewrite (@broadcast_same _ _ radd (tabulate [n; g] _) (tabulate [n; g] _)
                 n g eq_refl eq_refl)
    | rewrite (@broadcast_row _ _ radd (tabulate [n; g] _) b n g eq_refl sb) ];
  do 2 f_equal; apply tabulate_ext; intros idx H;
  destruct (valid2_inv H) as (i & c & -> & Hi & Hc);
  rewrite ?get_tabulate by exact H;
  unfold root_term, projected, edge_term; simpl ix; simpl nth;
  rewrite ?(get_scalar_div rone sD wD Hi); reflexivity.
Qed.

End FormulaFacts.

(** ** Weight instantiation *)

Section BuildFacts.
Import GraphConvolution.
Context {R : Type} {SR : Scalar R} {U : Utils R}.

Lemma index_last_ok {S} (l : list nat) (s : S) :
  l <> [] -> index_last l s = (Ok (last l 0), s).
Proof.
  intros H. unfold index_last.
  destruct l as [|a l] using rev_ind; [congruence|].
  rewrite rev_app_distr, last_last. reflexivity.
Qed.

Lemma shape_eqb_spec a b : reflect (a = b) (shape_eqb a b).
Proof.
  unfold shape_eqb. destruct (list_eq_dec Nat.eq_dec a b); constructor; assumption.
Qed.

(** What [build] does on an input list of two or three shapes. *)
Lemma build_unfold (self : layer R) s0 s1 rest :
  length rest <= 1 ->
  build (s0 :: s1 :: rest) self =
  match s0 with
  | [] => (Raise IndexError, self)
  | _ =>
      let F := last s0 0 in
      let self1 := set_kernel (add_weight [F; F_ self] (kernel_initializer self) "kernel") self in
      let self2 := if use_bias self
                   then set_bias (add_weight [F_ self] (bias_initializer self) "bias") self1
                   else self1 in
      let self3 := if rooted_subtree self
                   then set_rooted_kernel
                          (add_weight [F; F_ self] (kernel_initializer self) "rooted_kernel") self2
                   else self2 in
      match rest with
      | [] => (Ok tt, self3)
      | s2 :: _ =>
          if shape_eqb s2 [0] then (Ok tt, self3)
          else match s2 with
               | [] => (Raise IndexError, self3)
               | _ => (Ok tt, set_edge_kernel
                                (add_weight [last s2 0; F_ self]
                                   (kernel_initializer self) "edge_kernel") self3)
               end
      end
  end.
Proof.
  intros Hrest.
  assert (Hlen : ((length (s0 :: s1 :: rest) =? 2) || (length (s0 :: s1 :: rest) =? 3)) = true).
  { destruct rest as [|s2 [|]]; simpl in *; try reflexivity; lia. }
  unfold build, bind, assert, index, get_self, modify, ret.
  rewrite Hlen. cbn [nth_error].
  destruct s0 as [|d s0]; [reflexivity|].
  rewrite index_last_ok by discriminate.
  destruct self as [F' an rs ac ub ki bi k b rk ek bu].
  cbn [use_bias rooted_subtree F_ kernel_initializer bias_initializer].
  destruct rest as [|s2 [|]]; [| | simpl in Hrest; lia].
  - destruct ub, rs; reflexivity.
  - cbn [length Nat.eqb nth_error].
    destruct (shape_eqb s2 [0]); cbn [negb].
    + destruct ub, rs; reflexivity.
    + destruct s2 as [|d2 s2].
      * destruct ub, rs; reflexivity.
      * destruct ub, rs; cbn -[last add_weight];
          rewrite index_last_ok by discriminate; reflexivity.
Qed.

Lemma build_arity_error (self : layer R) input_shape :
  ~ arity_ok input_shape ->
  build input_shape self = (Raise AssertionError, self).
Proof.
  intros H. unfold build, bind, assert.
  destruct ((length input_shape =? 2) || (length input_shape =? 3)) eqn:E;
    [|reflexivity].
  exfalso. apply H. unfold arity_ok.
  apply orb_true_iff in E. rewrite !Nat.eqb_eq in E. exact E.
Qed.

Lemma arity_ok_inv input_shape :
  arity_ok input_shape ->
  exists s0 s1 rest, input_shape = s0 :: s1 :: rest /\ length rest <= 1.
Proof.
  destruct input_shape as [|s0 [|s1 rest]]; intros [H|H]; simpl in H;
    try discriminate.
  - exists s0, s1, rest. split; [reflexivity | lia].
  - exists s0, s1, rest. split; [reflexivity | lia].
Qed.

(** C8 (as amended).  [build] raises its arity assertion exactly when the
    number of input shapes is neither 2 nor 3.  With 2 or 3 input shapes it
    succeeds exactly when the node-feature shape, and the edge-feature shape
    of a third input, have at least one axis (the layer reads their last
    axis). *)
Theorem build_arity (self : layer R) (input_shape : list (list nat)) :
  (fst (build input_shape self) = Raise AssertionError
   <-> ~ arity_ok input_shape)
  /\ (fst (build input_shape self) = Ok tt
      <-> arity_ok input_shape
          /\ nth_error input_shape 0 <> Some []
          /\ nth_error input_shape 2 <> Some []).
Proof.
  destruct (Nat.eq_dec (length input_shape) 2) as [E2|N2];
    [assert (Hok : arity_ok input_shape) by (left; exact E2) |
     destruct (Nat.eq_dec (length input_shape) 3) as [E3|N3];
       [assert (Hok : arity_ok input_shape) by (right; exact E3) |
        assert (Hno : ~ arity_ok input_shape) by (intros [?|?]; contradiction)]].
  3: { rewrite (build_arity_error self Hno). simpl. split.
       - tauto.
       - split; [discriminate | intros [? _]; contradiction]. }
  all: destruct (arity_ok_inv Hok) as (s0 & s1 & rest & -> & Hrest);
    rewrite build_unfold by exact Hrest; cbv zeta;
    (destruct s0 as [|d0 s0]; simpl fst;
      [ split; [split; [discriminate | tauto]
               | split; [discriminate | intros (_ & H & _); exfalso; apply H; reflexivity]]
      | ]);
    (destruct rest as [|s2 rest]; simpl fst;
      [ split; [split; [discriminate | tauto]
               | split; [intros _; repeat split; [exact Hok | discriminate..] | reflexivity]]
      | ]);
    (destruct (shape_eqb_spec s2 [0]) as [->|Hs2]; simpl fst;
      [ split; [split; [discriminate | tauto]
               | split; [intros _; repeat split; [exact Hok | discriminate..] | reflexivity]]
      | ]);
    (destruct s2 as [|d2 s2]; simpl fst;
      [ split; [split; [discriminate | tauto]
               | split; [discriminate | intros (_ & _ & H); exfalso; apply H; reflexivity]]
      | split; [split; [discriminate | tauto]
               | split; [intros _; repeat split; [exact Hok | discriminate..] | reflexivity]]]).
Qed.

Lemma arity_ok_dec input_shape : {arity_ok input_shape} + {~ arity_ok input_shape}.
Proof.
  unfold arity_ok.
  destruct (Nat.eq_dec (length input_shape) 2); [left; left; assumption|].
  destruct (Nat.eq_dec (length input_shape) 3); [left; right; assumption|].
  right. intros [?|?]; contradiction.
Qed.

Lemma build_ok_arity (self self' : layer R) input_shape :
  build input_shape self = (Ok tt, self') -> arity_ok input_shape.
Proof.
  intros Hb. destruct (arity_ok_dec input_shape) as [H|H]; [exact H|].
  rewrite (build_arity_error self H) in Hb. discriminate.
Qed.

(** The edge kernel a successful [build] leaves behind. *)
Lemma build_edge_slot (self self' : layer R) input_shape :
  edge_kernel self = None ->
  build input_shape self = (Ok tt, self') ->
  edge_kernel self' =
  match nth_error input_shape 2 with
  | Some s2 =>
      if shape_eqb s2 [0] then None
      else Some (add_weight [last s2 0; F_ self] (kernel_initializer self)
                   "edge_kernel")
  | None => None
  end.
Proof.
  intros Hnone Hb.
  destruct (arity_ok_inv (build_ok_arity _ _ Hb)) as (s0 & s1 & rest & -> & Hrest).
  rewrite build_unfold in Hb by exact Hrest. cbv zeta in Hb.
  destruct s0 as [|d0 s0]; [discriminate|].
  set (k1 := add_weight _ _ "kernel") in Hb.
  set (b1 := add_weight _ _ "bias") in Hb.
  set (r1 := add_weight _ _ "rooted_kernel") in Hb.
  match type of Hb with context [if rooted_subtree self then ?a else ?b] =>
    set (s3 := if rooted_subtree self then a else b) in Hb end.
  assert (H3 : edge_kernel s3 = None).
  { subst s3. destruct (rooted_subtree self), (use_bias self); exact Hnone. }
  destruct rest as [|s2 rest]; simpl nth_error.
  - injection Hb as <-. exact H3.
  - destruct (shape_eqb s2 [0]) eqn:E0.
    + injection Hb as <-. rewrite ?E0. exact H3.
    + destruct s2 as [|d2 s2]; [discriminate|].
      injection Hb as <-. rewrite ?E0. reflexivity.
Qed.

(** Whether [build] creates an edge kernel, on any list of input shapes. *)
Lemma build_edge_cases (self : layer R) input_shape :
  edge_kernel self = None ->
  (exists s0 s1 s2,
      input_shape = [s0; s1; s2] /\ s0 <> [] /\ s2 <> [0] /\ s2 <> []
      /\ fst (build input_shape self) = Ok tt
      /\ edge_kernel (snd (build input_shape self))
         = Some (add_weight [last s2 0; F_ self] (kernel_initializer self)
                   "edge_kernel"))
  \/ ((forall s0 s1 s2, input_shape = [s0; s1; s2] ->
        s0 = [] \/ s2 = [0] \/ s2 = [])
      /\ edge_kernel (snd (build input_shape self)) = None).
Proof.
  intros Hnone.
  destruct (arity_ok_dec input_shape) as [Ha|Ha].
  - destruct (arity_ok_inv Ha) as (s0 & s1 & rest & -> & Hrest).
    rewrite build_unfold by exact Hrest. cbv zeta.
    destruct s0 as [|d0 s0].
    { right. split; [|exact Hnone].
      intros t0 t1 t2 E. left. congruence. }
    set (k1 := add_weight _ _ "kernel").
    set (b1 := add_weight _ _ "bias").
    set (r1 := add_weight _ _ "rooted_kernel").
    match goal with |- context [if rooted_subtree self then ?a else ?b] =>
      set (s3 := if rooted_subtree self then a else b) end.
    assert (H3 : edge_kernel s3 = None).
    { subst s3. destruct (rooted_subtree self), (use_bias self); exact Hnone. }
    destruct rest as [|s2 [|s3' rest]]; [| | simpl in Hrest; lia].
    + right. split; [intros t0 t1 t2 E; discriminate | exact H3].
    + destruct (shape_eqb_spec s2 [0]) as [->|Hs2].
      * right. split; [|exact H3].
        intros t0 t1 t2 E. right. left. congruence.
      * destruct s2 as [|d2 s2].
        -- right. split; [|exact H3].
           intros t0 t1 t2 E. right. right. congruence.
        -- left. exists (d0 :: s0), s1, (d2 :: s2).
           split; [reflexivity|]. split; [discriminate|].
           split; [exact Hs2|]. split; [discriminate|].
           split; reflexivity.
  - right. rewrite (build_arity_error self Ha). split; [|exact Hnone].
    intros t0 t1 t2 ->. exfalso. apply Ha. right. reflexivity.
Qed.

(** C4 (as amended).  On a layer that holds no edge kernel yet, [build]
    creates an [edge_kernel] exactly when it receives three input shapes,
    the first of them is not the empty shape [()] and the third differs,
    as a whole, from the sentinel [(0,)] and from the empty shape [()].
    [build] then returns, and the edge kernel has the shape [(F_edge, F_)]
    with [F_edge] the last axis of the third shape, whatever its length.
    On a third shape [()] [build] raises [IndexError].  Whenever [build]
    returns, an edge kernel exists exactly when a third shape is present
    and differs from [(0,)]. *)
Theorem edge_kernel_created (self : layer R) (input_shape : list (list nat)) :
  edge_kernel self = None ->
  (edge_kernel (snd (build input_shape self)) <> None
   <-> exists s0 s1 s2,
         input_shape = [s0; s1; s2] /\ s0 <> [] /\ s2 <> [0] /\ s2 <> [])
  /\ (forall s0 s1 s2,
        input_shape = [s0; s1; s2] -> s0 <> [] -> s2 <> [0] -> s2 <> [] ->
        fst (build input_shape self) = Ok tt
        /\ edge_kernel (snd (build input_shape self))
           = Some (add_weight [last s2 0; F_ self] (kernel_initializer self)
                     "edge_kernel"))
  /\ (forall s0 s1,
        input_shape = [s0; s1; []] ->
        fst (build input_shape self) = Raise IndexError)
  /\ (fst (build input_shape self) = Ok tt ->
      (edge_kernel (snd (build input_shape self)) <> None
       <-> exists s2, nth_error input_shape 2 = Some s2 /\ s2 <> [0])).
Proof.
  intros Hnone. split; [|split; [|split]].
  - destruct (@build_edge_cases self input_shape Hnone)
      as [(s0 & s1 & s2 & E & H0 & H2 & H2' & _ & HE) | [Hno HE]].
    + rewrite HE. split; [intros _; exists s0, s1, s2; auto | discriminate].
    + rewrite HE. split; [intros H; contradiction|].
      intros (s0 & s1 & s2 & E & H0 & H2 & H2').
      destruct (Hno _ _ _ E) as [H|[H|H]]; contradiction.
  - intros s0 s1 s2 E H0 H2 H2'.
    destruct (@build_edge_cases self input_shape Hnone)
      as [(t0 & t1 & t2 & E' & _ & _ & _ & Hok & HE) | [Hno _]].
    + assert (t2 = s2) by congruence. subst t2. split; assumption.
    + destruct (Hno _ _ _ E) as [H|[H|H]]; contradiction.
  - intros s0 s1 ->. rewrite build_unfold by (simpl; lia).
    destruct s0 as [|d0 s0]; [reflexivity|]. cbv zeta.
    destruct (shape_eqb_spec (@nil nat) [0]) as [H|_]; [discriminate|].
    reflexivity.
  - intros Hok.
    assert (Hb : build input_shape self = (Ok tt, snd (build input_shape self))).
    { destruct (build input_shape self) as [r s']. simpl in Hok |- *.
      rewrite Hok. reflexivity. }
    rewrite (@build_edge_slot self _ input_shape Hnone Hb).
    destruct (nth_error input_shape 2) as [s2|].
    + destruct (shape_eqb_spec s2 [0]) as [->|Hs2].
      * split; [intros H; contradiction |].
        intros (x & Hx & Hn). injection Hx as <-. contradiction.
      * split; [intros _; eexists; split; [reflexivity | exact Hs2] | discriminate].
    + split; [intros H; contradiction | intros (? & ? & _); discriminate].
Qed.

End BuildFacts.

(** ** Forward computation of one layer *)

Section CallFacts.
Import GraphConvolution.
Context {R : Type} {SR : Scalar R} {U : Utils R}.

Lemma reads_only_ret {S A} (a : A) : reads_only (@ret S A a).
Proof. intros s. reflexivity. Qed.

Lemma reads_only_raise {S A} e : reads_only (@raise S A e).
Proof. intros s. reflexivity. Qed.

Lemma reads_only_get_self {S} : reads_only (@get_self S).
Proof. intros s. reflexivity. Qed.

Lemma reads_only_lift {S A} (r : result A) : reads_only (@lift S A r).
Proof. intros s. reflexivity. Qed.

Lemma reads_only_index {S A} (l : list A) i : reads_only (@index S A l i).
Proof. intros s. unfold index. destruct (nth_error l i); reflexivity. Qed.

Lemma reads_only_populated {S A} (w : option A) : reads_only (@populated S A w).
Proof. intros s. destruct w; reflexivity. Qed.

Lemma reads_only_bind {S A B} (c : M S A) (k : A -> M S B) :
  reads_only c -> (forall a, reads_only (k a)) -> reads_only (bind c k).
Proof.
  intros Hc Hk s. unfold bind. specialize (Hc s).
  destruct (c s) as [[a|e] s']; simpl in Hc; subst s'; [apply Hk | reflexivity].
Qed.

Ltac solve_reads_only :=
  repeat first
    [ apply reads_only_ret | apply reads_only_raise | apply reads_only_get_self
    | apply reads_only_lift | apply reads_only_index | apply reads_only_populated
    | apply reads_only_bind; [| intros ?]
    | progress cbv zeta
    | match goal with
      | |- reads_only (if ?b then _ else _) => destruct b
      | |- reads_only (match ?x with _ => _ end) => destruct x
      end ].

(** [call] only reads the attributes of the layer. *)
Lemma pre_activation_state (self : layer R) inputs :
  snd (pre_activation inputs self) = self.
Proof. revert self. change (reads_only (pre_activation inputs)).
  unfold pre_activation. solve_reads_only.
Qed.

Lemma call_state (self : layer R) inputs : snd (call inputs self) = self.
Proof. revert self. change (reads_only (call inputs)).
  unfold call, pre_activation. solve_reads_only.
Qed.

Lemma call_spec (self : layer R) inputs n f g :
  well_shaped self inputs n f g ->
  call inputs self
  = (Ok (apply_activation (activation self)
           (tabulate [n; g] (spec_output self inputs n f))), self).
Proof.
  intros H. unfold call, bind, get_self, ret.
  rewrite (pre_activation_spec H). reflexivity.
Qed.

Lemma call_built (self : layer R) inputs :
  built self = true -> __call__ inputs self = call inputs self.
Proof. intros H. unfold __call__, bind, get_self, ret. rewrite H. reflexivity. Qed.

(** C9.  On a layer whose weights exist, [layer(inputs)] returns (or
    raises) and leaves every attribute of the layer as it was; a second
    application to the same inputs therefore runs on the same parameters,
    without building again, and returns the same output.  On any layer, an
    application that returns leaves a built layer on which the same
    application returns the same output and changes nothing. *)
Theorem apply_twice (self : layer R) (inputs : list (tensor R)) :
  (built self = true ->
   exists r,
     __call__ inputs self = (r, self)
     /\ (y1 <- __call__ inputs ;; y2 <- __call__ inputs ;; ret (y1, y2)) self
        = (match r with Ok y => Ok (y, y) | Raise e => Raise e end, self))
  /\ (forall y self1,
      __call__ inputs self = (Ok y, self1) ->
      built self1 = true /\ __call__ inputs self1 = (Ok y, self1)).
Proof.
  assert (Hbuilt : forall s, built s = true ->
            __call__ inputs s = (fst (call inputs s), s)).
  { intros s Hb. rewrite (call_built _ _ Hb).
    rewrite <- (call_state s inputs) at 3.
    destruct (call inputs s); reflexivity. }
  split.
  - intros Hb. exists (fst (call inputs self)).
    split; [exact (Hbuilt self Hb)|].
    pose proof (Hbuilt self Hb) as E.
    set (r := fst (call inputs self)) in *.
    unfold bind, ret. rewrite E.
    destruct r as [y|e]; [rewrite E; reflexivity | reflexivity].
  - intros y self1 H.
    assert (Hs : built self1 = true /\ call inputs self1 = (Ok y, self1)).
    { unfold __call__, bind, get_self, modify, ret in H.
      destruct (built self) eqn:Hb.
      - pose proof (call_state self inputs) as Hc. rewrite H in Hc.
        simpl in Hc. subst self1. split; assumption.
      - destruct (build (map (@shape R) inputs) self) as [[[]|e] sb];
          [|discriminate].
        pose proof (call_state (set_built true sb) inputs) as Hc.
        rewrite H in Hc. simpl in Hc. subst self1. split; [reflexivity | exact H]. }
    destruct Hs as [Hb1 Hc1]. split; [exact Hb1|].
    rewrite (call_built _ _ Hb1). exact Hc1.
Qed.

(** C10.  A layer built on two inputs, or on a third input of the sentinel
    shape [(0,)], has no edge kernel, and its [call] ignores a third input:
    it returns (or raises) exactly what the two-input call does. *)
Theorem third_input_ignored (self0 self : layer R) (input_shape : list (list nat)) :
  edge_kernel self0 = None ->
  length input_shape = 2 \/ nth_error input_shape 2 = Some [0] ->
  build input_shape self0 = (Ok tt, self) ->
  edge_kernel self = None
  /\ forall X A Z, call [X; A; Z] self = call [X; A] self.
Proof.
  intros H0 Hs Hb.
  assert (He : edge_kernel self = None).
  { rewrite (@build_edge_slot _ self0 self input_shape H0 Hb). destruct Hs as [Hl|Hz].
    - replace (nth_error input_shape 2) with (@None (list nat)); [reflexivity|].
      symmetry. apply nth_error_None. rewrite Hl. apply le_n.
    - rewrite Hz. reflexivity. }
  split; [exact He|]. intros X A Z.
  unfold call, pre_activation, bind, get_self, index. simpl nth_error.
  rewrite He. reflexivity.
Qed.

(** C1.  Without bias, root term and normalisation, with the identity
    activation and no edge kernel, [call [X; A]] returns the product
    [(A @ X) @ kernel]: entry [(i, c)] is
    [sum_k (sum_j A[i,j] * X[j,k]) * kernel[k,c]]. *)
Theorem call_plain (self : layer R) (X A K : tensor R) (n f g : nat) :
  use_bias self = false -> activation self = linear ->
  rooted_subtree self = false -> auto_normalize self = false ->
  kernel self = Some K -> edge_kernel self = None ->
  shape X = [n; f] -> shape A = [n; n] -> shape K = [f; g] ->
  exists AX Y,
    matmul A X = Ok AX /\ matmul AX K = Ok Y
    /\ call [X; A] self = (Ok Y, self)
    /\ Y = tabulate [n; g] (aggregated A X K n f).
Proof.
  intros Hb Ha Hr Hn HK He sX sA sK.
  assert (W : well_shaped self [X; A] n f g).
  { constructor.
    - exists X. split; [reflexivity | exact sX].
    - exists A. unfold adjacency_used. rewrite Hn. split; [reflexivity | exact sA].
    - exists K. split; assumption.
    - rewrite Hr. discriminate.
    - rewrite He. discriminate.
    - rewrite Hb. discriminate. }
  pose proof (call_spec W) as Hc.
  unfold spec_output, with_bias, with_edge, with_root, adjacency_used in Hc.
  rewrite Ha, Hb, Hr, Hn, HK, He in Hc. simpl in Hc.
  exists (tabulate [n; f] (fun idx =>
            sum n (fun j => rmul (get A [ix idx 0; j]) (get X [j; ix idx 1])))).
  exists (tabulate [n; g] (aggregated A X K n f)).
  split; [apply (matmul_shapes A X sA sX)|].
  split; [|split; [exact Hc | reflexivity]].
  rewrite (@matmul_shapes _ _ (tabulate [n; f] _) K n f g eq_refl sK).
  f_equal. apply tabulate_ext. intros idx H.
  destruct (valid2_inv H) as (i & c & -> & Hi & Hc').
  apply sum_ext. intros k Hk.
  rewrite get_tabulate by (apply valid2; assumption). reflexivity.
Qed.

(** C3.  With an edge kernel and inputs [[X; A; Z]], [Z] of shape
    [(n, n, fe)], the value handed to the bias and the activation is the
    value accumulated so far (aggregation and root term) plus, at node [i]
    and output channel [c],
    [sum_j sum_e A[i,j] * Z[i,j,e] * edge_kernel[e,c]].  Without root term
    and bias, under the identity activation, [call] returns
    [A @ X @ kernel] plus that term. *)
Theorem edge_term_added (self : layer R) (X A Z K EK : tensor R) (n f g fe : nat) :
  well_shaped self [X; A; Z] n f g ->
  kernel self = Some K -> edge_kernel self = Some EK ->
  shape Z = [n; n; fe] ->
  pre_activation [X; A; Z] self
  = (Ok (tabulate [n; g]
           (with_bias self (fun idx =>
              radd (with_root self (adjacency_used self A) X f
                      (aggregated (adjacency_used self A) X K n f) idx)
                   (sum n (fun j => sum fe (fun e =>
                      rmul (rmul (get (adjacency_used self A) [ix idx 0; j])
                                 (get Z [ix idx 0; j; e]))
                           (get EK [e; ix idx 1]))))))),
     self)
  /\ (rooted_subtree self = false -> use_bias self = false ->
      activation self = linear ->
      call [X; A; Z] self
      = (Ok (tabulate [n; g] (fun idx =>
               radd (aggregated (adjacency_used self A) X K n f idx)
                    (sum n (fun j => sum fe (fun e =>
                       rmul (rmul (get (adjacency_used self A) [ix idx 0; j])
                                  (get Z [ix idx 0; j; e]))
                            (get EK [e; ix idx 1])))))),
         self)).
Proof.
  intros W HK HE sZ. split.
  - rewrite (pre_activation_spec W).
    unfold spec_output, with_edge. simpl nth. rewrite HK, HE, sZ. reflexivity.
  - intros Hr Hb Ha. rewrite (call_spec W), Ha.
    unfold spec_output, with_bias, with_edge, with_root. simpl nth.
    rewrite HK, HE, sZ, Hr, Hb. reflexivity.
Qed.

Lemma well_shaped_unrooted (self : layer R) X A rest n f g :
  adjacency_used (unrooted self) A = adjacency_used self A ->
  well_shaped self (X :: A :: rest) n f g ->
  well_shaped (unrooted self) (X :: A :: rest) n f g.
Proof.
  intros HA [wX wA wK wR wE wB]. constructor; simpl; try assumption.
  - destruct wA as (A0 & E & sA). injection E as <-.
    exists A. rewrite HA. split; [reflexivity | exact sA].
  - discriminate.
Qed.

Lemma radd_swap (a r e : R) :
  (forall x y, radd x y = radd y x) ->
  (forall x y z, radd x (radd y z) = radd (radd x y) z) ->
  radd (radd a r) e = radd (radd a e) r.
Proof.
  intros C As. rewrite <- As, (C r e), As. reflexivity.
Qed.

(** C2.  With [rooted_subtree] the forward computation adds to
    [A @ X @ kernel], at node [i], the root term
    [(1 / D[i]) * (X @ rooted_kernel)[i]], where [D = get_degrees A] for the
    adjacency [A] the aggregation runs on.  If every degree is [d] and the
    same adjacency is used with the flag disabled, the value before the
    activation is the one of the layer with the flag disabled plus
    [(1 / d) * X @ rooted_kernel]; when an edge term or a bias is also
    added this reorders a sum, so addition is taken associative and
    commutative there. *)
Theorem root_term_added (self : layer R) (X A K RK : tensor R)
  (rest : list (tensor R)) (n f g : nat) :
  rooted_subtree self = true ->
  well_shaped self (X :: A :: rest) n f g ->
  kernel self = Some K -> rooted_kernel self = Some RK ->
  pre_activation (X :: A :: rest) self
  = (Ok (tabulate [n; g]
           (with_bias self
              (with_edge self (adjacency_used self A) (nth 2 (X :: A :: rest) no_tensor) n
                 (fun idx =>
                    radd (aggregated (adjacency_used self A) X K n f idx)
                         (rmul (rdiv rone
                                  (get (get_degrees (adjacency_used self A)) [ix idx 0]))
                               (projected X RK f idx)))))),
     self)
  /\ forall d,
      (forall i, i < n -> get (get_degrees (adjacency_used self A)) [i] = d) ->
      adjacency_used (unrooted self) A = adjacency_used self A ->
      (edge_kernel self = None /\ use_bias self = false)
      \/ ((forall x y : R, radd x y = radd y x)
          /\ (forall x y z : R, radd x (radd y z) = radd (radd x y) z)) ->
      exists Yr Yu,
        pre_activation (X :: A :: rest) self = (Ok Yr, self)
        /\ pre_activation (X :: A :: rest) (unrooted self) = (Ok Yu, unrooted self)
        /\ forall idx, valid [n; g] idx ->
             get Yr idx
             = radd (get Yu idx) (rmul (rdiv rone d) (projected X RK f idx)).
Proof.
  intros Hr W HK HRK. split.
  - rewrite (pre_activation_spec W).
    unfold spec_output, with_root, root_term. simpl nth.
    rewrite HK, Hr, HRK. reflexivity.
  - intros d Hd HA Hlaws.
    exists (tabulate [n; g] (spec_output self (X :: A :: rest) n f)).
    exists (tabulate [n; g] (spec_output (unrooted self) (X :: A :: rest) n f)).
    split; [apply (pre_activation_spec W)|].
    split; [apply (pre_activation_spec (well_shaped_unrooted HA W))|].
    intros idx Hv. rewrite !get_tabulate by exact Hv.
    destruct (valid2_inv Hv) as (i & c & -> & Hi & Hc).
    unfold spec_output, with_bias, with_edge, with_root, root_term.
    simpl nth. rewrite HA.
    cbn [unrooted kernel rooted_subtree rooted_kernel edge_kernel use_bias bias].
    rewrite HK, Hr, HRK. unfold ix. cbn [nth].
    rewrite (Hd i Hi).
    destruct Hlaws as [[He Hb]|[C As]].
    + rewrite He, Hb. reflexivity.
    + destruct (edge_kernel self) as [EK|];
        destruct (use_bias self); try destruct (bias self) as [b|];
        rewrite ?(radd_swap _ _ (get b [c]) C As);
        rewrite ?(radd_swap _ _ (edge_term _ _ EK _ _ _) C As);
        reflexivity.
Qed.

End CallFacts.

(** ** The stack of layers *)

Section StackFacts.
Import StackedGraphConvolution.
Context {R : Type} {SR : Scalar R} {U : Utils R}.

(** C6.  [vocab_size()] returns 1 when [last_layer_only] holds and
    [num_layers] otherwise, and leaves the model as it is; on a model made
    by the constructor [num_layers] is the number of layers asked for. *)
Theorem vocab_size_value (self : model R) :
  vocab_size self
  = (Ok (if last_layer_only self then 1 else num_layers self), self)
  /\ forall n F l r,
      fst (vocab_size (__init__ n F l r)) = Ok (if l then 1 else n).
Proof.
  split.
  - unfold vocab_size, bind, get_self, ret.
    destruct (last_layer_only self); reflexivity.
  - intros n F l r. destruct l; reflexivity.
Qed.

(** One application of a layer of the stack.  The first one builds the
    weights for the shapes at hand; every one returns a matrix of [F]
    columns and leaves a built layer. *)
Lemma apply_ready F rooted (x A : tensor R) extra n fin l :
  shape x = [n; fin] -> shape A = [n; n] ->
  (rooted = true -> shape (get_degrees A) = [n] /\ wf (get_degrees A)) ->
  extra_ok n extra ->
  layer_ready rooted F n fin A extra l ->
  exists y l',
    GraphConvolution.__call__ ([x; A] ++ extra) l = (Ok y, l')
    /\ GraphConvolution.call ([x; A] ++ extra) l' = (Ok y, l')
    /\ shape y = [n; F]
    /\ GraphConvolution.built l' = true
    /\ GraphConvolution.activation l' = linear
    /\ (forall x', shape x' = [n; fin] ->
        well_shaped l' ([x'; A] ++ extra) n fin F).
Proof.
  intros sx sA HD Hextra [(k & ->)|(Hb & Ha & HW)].
  2: { exists (tabulate [n; F] (spec_output l ([x; A] ++ extra) n fin)), l.
       rewrite (call_built _ _ Hb), (call_spec (HW x sx)), Ha.
       repeat (split; [first [reflexivity | assumption]|]). exact HW. }
  assert (Hlen : length (map (@shape R) extra) <= 1).
  { rewrite length_map. destruct Hextra as [->|(Z & -> & _)]; simpl; lia. }
  unfold GraphConvolution.__call__, bind, get_self, modify, ret.
  cbn [new_layer GraphConvolution.__init__ GraphConvolution.built app map].
  rewrite build_unfold by exact Hlen.
  rewrite sx. cbv zeta.
  cbn [new_layer GraphConvolution.__init__ GraphConvolution.use_bias
       GraphConvolution.rooted_subtree GraphConvolution.F_
       GraphConvolution.kernel_initializer GraphConvolution.bias_initializer
       last].
  assert (Fin : forall L,
            (forall x', shape x' = [n; fin] ->
               well_shaped L (x' :: A :: extra) n fin F) ->
            GraphConvolution.activation L = linear ->
            exists y l',
              GraphConvolution.call (x :: A :: extra)
                (GraphConvolution.set_built true L) = (Ok y, l')
              /\ GraphConvolution.call (x :: A :: extra) l' = (Ok y, l')
              /\ shape y = [n; F]
              /\ GraphConvolution.built l' = true
              /\ GraphConvolution.activation l' = linear
              /\ (forall x', shape x' = [n; fin] ->
                  well_shaped l' ([x'; A] ++ extra) n fin F)).
  { intros L W Ha.
    assert (W' : forall x', shape x' = [n; fin] ->
                 well_shaped (GraphConvolution.set_built true L)
                   (x' :: A :: extra) n fin F).
    { intros x' sx'. destruct (W x' sx'); constructor; assumption. }
    exists (tabulate [n; F]
              (spec_output (GraphConvolution.set_built true L) (x :: A :: extra) n fin)).
    exists (GraphConvolution.set_built true L).
    rewrite (call_spec (W' x sx)).
    cbn [GraphConvolution.set_built GraphConvolution.activation].
    rewrite Ha. repeat (split; [first [reflexivity | assumption]|]). exact W'. }
  destruct Hextra as [->|(Z & -> & [sZ|(fe & sZ)])]; cbn [map]; rewrite ?sZ.
  - destruct rooted; apply Fin; try reflexivity; intros x' sx'; constructor;
      cbn; eauto; try discriminate;
      intros _; split; [eauto | intros A0 E; injection E as <-; apply HD; reflexivity].
  - destruct (shape_eqb_spec [0] [0]) as [_|N]; [|congruence].
    destruct rooted; apply Fin; try reflexivity; intros x' sx'; constructor;
      cbn; eauto; try discriminate;
      intros _; split; [eauto | intros A0 E; injection E as <-; apply HD; reflexivity].
  - destruct (shape_eqb_spec [n; n; fe] [0]) as [E|_]; [discriminate E|].
    destruct rooted; apply Fin; try reflexivity; intros x' sx'; constructor;
      cbn; eauto; try discriminate;
      try (intros _; split; [eauto | intros A0 E; injection E as <-; apply HD; reflexivity]);
      intros EK E; injection E as <-; exists Z, fe; auto.
Qed.

Lemma for_layers_step index rest (A : tensor R) extra x outputs (self : model R) l y l' :
  nth_error (gc_layers self) index = Some l ->
  GraphConvolution.__call__ ([x; A] ++ extra) l = (Ok y, l') ->
  for_layers (index :: rest) A extra x outputs self =
  let self1 := set_gc_layers (replace_nth index l' (gc_layers self)) self in
  for_layers rest A extra (apply_activation (activation self1) y)
    (if negb (last_layer_only self1) || (index + 1 =? length (gc_layers self1))
     then outputs ++ [y] else outputs)
    self1.
Proof.
  intros Hl Hy. cbn [for_layers]. unfold bind at 1. unfold on_layer.
  rewrite Hl, Hy. reflexivity.
Qed.

Lemma replace_nth_app {A} (done : list A) a b rest :
  replace_nth (length done) b (done ++ a :: rest) = done ++ b :: rest.
Proof. induction done as [|d done IH]; simpl; [reflexivity | rewrite IH; reflexivity]. Qed.

Lemma nth_error_middle {A} (done : list A) a rest :
  nth_error (done ++ a :: rest) (length done) = Some a.
Proof. induction done as [|d done IH]; simpl; [reflexivity | exact IH]. Qed.

Lemma kept_cons lo (y : tensor R) ys (m : nat) (outputs : list (tensor R)) p :
  length ys = m ->
  (if negb lo || (p + 1 =? p + S m) then outputs ++ [y] else outputs) ++ kept lo ys
  = outputs ++ kept lo (y :: ys).
Proof.
  intros Hm. destruct lo; simpl negb; simpl orb.
  - destruct (Nat.eqb_spec (p + 1) (p + S m)) as [E|E].
    + assert (m = 0) by lia. subst m. destruct ys; [|discriminate].
      simpl. rewrite app_nil_r. reflexivity.
    + destruct ys as [|y' ys]; [simpl in Hm; lia|]. reflexivity.
  - unfold kept. rewrite <- app_assoc. reflexivity.
Qed.

(** The layers the constructor makes are ready for any shapes. *)
Lemma fresh_ready rooted F n (A : tensor R) extra ks :
  forall fin, stack_ready rooted F n fin A extra (map (new_layer F rooted) ks).
Proof.
  induction ks as [|k ks IH]; intros fin; simpl; [exact I|].
  split; [left; exists k; reflexivity | apply IH].
Qed.

(** The loop of [call], from the layer of index [length done] on. *)
Lemma for_layers_ready F rooted (A : tensor R) extra n :
  shape A = [n; n] ->
  (rooted = true -> shape (get_degrees A) = [n] /\ wf (get_degrees A)) ->
  extra_ok n extra ->
  forall todo done x outputs (self : model R) fin,
    gc_layers self = done ++ todo ->
    activation self = relu ->
    shape x = [n; fin] ->
    stack_ready rooted F n fin A extra todo ->
    exists ys built,
      for_layers (seq (length done) (length todo)) A extra x outputs self
      = (Ok (outputs ++ kept (last_layer_only self) ys),
         set_gc_layers (done ++ built) self)
      /\ length ys = length todo /\ length built = length todo
      /\ Forall (fun y => shape y = [n; F]) ys
      /\ Forall (fun l => GraphConvolution.activation l = linear) built
      /\ stack_ready rooted F n fin A extra built
      /\ chained built A extra x ys.
Proof.
  intros sA HD Hextra. induction todo as [|l todo IH];
    intros done x outputs self fin Hgc Hact sx Hready.
  - exists [], []. simpl. rewrite !app_nil_r. rewrite app_nil_r in Hgc.
    rewrite <- Hgc.
    assert (E : kept (last_layer_only self) (@nil (tensor R)) = [])
      by (unfold kept; destruct (last_layer_only self); reflexivity).
    rewrite E, app_nil_r. destruct self; repeat split; constructor.
  - destruct Hready as [Hl Hrest].
    destruct (@apply_ready F rooted x A extra n fin l sx sA HD Hextra Hl)
      as (y & l' & Happly & Hcall & sy & Hbuilt & Hlin & HW).
    simpl length. simpl seq.
    erewrite for_layers_step;
      [| rewrite Hgc; apply nth_error_middle | exact Happly].
    cbv zeta. rewrite Hgc. rewrite replace_nth_app.
    set (self1 := set_gc_layers (done ++ l' :: todo) self).
    assert (Hgc1 : gc_layers self1 = (done ++ [l']) ++ todo).
    { subst self1. simpl. rewrite <- app_assoc. reflexivity. }
    assert (Hact1 : activation self1 = relu) by exact Hact.
    rewrite Hact1.
    destruct (IH (done ++ [l']) (apply_activation relu y)
                (if negb (last_layer_only self1)
                    || (length done + 1 =? length (gc_layers self1))
                 then outputs ++ [y] else outputs)
                self1 F Hgc1 Hact1 sy Hrest)
      as (ys & built & Hrun & Hlen & Hlenb & Hshapes & Hlins & Hre & Hchain).
    exists (y :: ys), (l' :: built).
    replace (S (length done)) with (length (done ++ [l']))
      by (rewrite length_app; simpl; lia).
    rewrite Hrun. repeat split.
    + f_equal.
      * change (last_layer_only self1) with (last_layer_only self).
        rewrite Hgc1, !length_app. simpl length.
        replace (length done + 1 + length todo)
          with (length done + S (length todo)) by lia.
        f_equal. apply kept_cons. exact Hlen.
      * subst self1. unfold set_gc_layers. simpl. rewrite <- app_assoc. reflexivity.
    + simpl. rewrite Hlen. reflexivity.
    + simpl. rewrite Hlenb. reflexivity.
    + constructor; assumption.
    + constructor; assumption.
    + right. split; [exact Hbuilt | split; [exact Hlin | exact HW]].
    + exact Hre.
    + exact Hcall.
    + exact Hchain.
Qed.

(** C5 (as amended).  On a stack of [num_layers >= 1] layers, fresh from
    the constructor or already built, and inputs [[X; A] ++ extra] of
    compatible shapes, [call] returns the kept layer outputs in order: the
    last one alone under [last_layer_only] (length 1), all of them otherwise
    (length [num_layers]).  Each is a matrix of shape [(n, F)], the value
    its layer returns under its identity activation; the ReLU of it is only
    what the next layer reads.  The stack is left built, ready for the next
    call. *)
Theorem stacked_outputs (self : model R) (X A : tensor R)
  (extra : list (tensor R)) (n f F : nat) :
  1 <= num_layers self ->
  length (gc_layers self) = num_layers self ->
  activation self = relu ->
  shape X = [n; f] ->
  shape (normalize_adjacency A (rooted_subtree self)) = [n; n] ->
  (rooted_subtree self = true ->
   shape (get_degrees (normalize_adjacency A (rooted_subtree self))) = [n]
   /\ wf (get_degrees (normalize_adjacency A (rooted_subtree self)))) ->
  extra_ok n extra ->
  stack_ready (rooted_subtree self) F n f
    (normalize_adjacency A (rooted_subtree self)) extra (gc_layers self) ->
  exists outputs ys built,
    call (X :: A :: extra) self = (Ok outputs, set_gc_layers built self)
    /\ outputs = (if last_layer_only self then [last ys no_tensor] else ys)
    /\ length outputs = (if last_layer_only self then 1 else num_layers self)
    /\ length ys = num_layers self
    /\ Forall (fun y => shape y = [n; F]) ys
    /\ Forall (fun l => GraphConvolution.activation l = linear) built
    /\ chained built (normalize_adjacency A (rooted_subtree self)) extra X ys
    /\ length built = num_layers self
    /\ stack_ready (rooted_subtree self) F n f
         (normalize_adjacency A (rooted_subtree self)) extra built.
Proof.
  intros Hn Hnum Hact sX sA HD Hextra Hready.
  destruct (@for_layers_ready F (rooted_subtree self)
              (normalize_adjacency A (rooted_subtree self)) extra n
              sA HD Hextra (gc_layers self) [] X [] self f
              eq_refl Hact sX Hready)
    as (ys & built & Hrun & Hlen & Hlenb & Hshapes & Hlins & Hre & Hchain).
  rewrite Hnum in Hlen, Hlenb.
  exists (if last_layer_only self then [last ys no_tensor] else ys), ys, built.
  split.
  - unfold call, bind, get_self, index. cbn [nth_error ret skipn].
    cbn [length app] in Hrun. rewrite Hrun.
    do 2 f_equal. unfold kept. destruct (last_layer_only self); [|reflexivity].
    destruct ys; [simpl in Hlen; lia | reflexivity].
  - repeat split; try assumption.
    destruct (last_layer_only self); [reflexivity | exact Hlen].
Qed.

End StackFacts.

(** ** Zero weights *)

Lemma float_add_zero a b :
  float_is_zero a -> float_is_zero b -> float_is_zero (a + b)%float.
Proof.
  unfold float_is_zero. rewrite add_spec.
  destruct (Prim2SF a) as [sa| | |]; try contradiction.
  destruct (Prim2SF b) as [sb| | |]; try contradiction.
  intros _ _. destruct sa, sb; exact I.
Qed.

Lemma float_mul_zero a b :
  float_finite a -> float_is_zero b -> float_is_zero (a * b)%float.
Proof.
  unfold float_finite, float_is_zero. rewrite mul_spec.
  destruct (Prim2SF a) as [sa| | |sa ma ea]; try contradiction;
    (destruct (Prim2SF b) as [sb| | |]; try contradiction); intros _ _; exact I.
Qed.

#[export] Instance float_zero_laws : ZeroLaws float := {
  finite := float_finite;
  is_zero := float_is_zero;
  zero_is_zero := I;
  add_zero := float_add_zero;
  mul_zero := float_mul_zero
}.




Section ZeroWeightFacts.
Import GraphConvolution.
Context {R : Type} {SR : Scalar R} {U : Utils R} {ZL : ZeroLaws R}.


(** What the ['zeros'] initializer draws. *)
Lemma zeros_all_zero sh name :
  all_zero (Some (GraphConvolution.add_weight sh (@zeros R SR) name)).
Proof.
  intros t E. injection E as <-. simpl. unfold zeros.
  apply Forall_forall. intros x Hx. apply repeat_spec in Hx. congruence.
Qed.






End ZeroWeightFacts.

(** * Concrete runs

    A graph of two nodes in binary64, under [spec_utils]. *)

Section Runs.
Import GraphConvolution.

#[local] Existing Instance float_utils.
#[local] Existing Instance Z_utils.

Example plain_layer_run :
  fst (call [X2; A2] plain_layer)
  = Ok (Tensor [2; 3] [7; 14; 21; 3; 6; 9]%float).
Proof. vm_compute. reflexivity. Qed.

Example full_layer_run :
  fst (call [X2; A2; Z2] full_layer)
  = Ok (Tensor [2; 3] [31; 29; 36; 38; 34; 30]%float).
Proof. vm_compute. reflexivity. Qed.

(** A layer built on three inputs reads [inputs[2]] on every call. *)
Example two_inputs_after_three :
  fst (call [X2; A2] full_layer) = Raise IndexError.
Proof. vm_compute. reflexivity. Qed.

(** The contraction on the two-node graph with one edge feature: node 0
    receives the feature of the edge to node 1, and conversely. *)
Example einsum_two_nodes (a b c d k1 k2 : Z) :
  einsum "ij,ijf,fg->ig" [AZ; Tensor [2; 2; 1] [a; b; c; d]; Tensor [1; 2] [k1; k2]]
  = Ok (Tensor [2; 2] [b * k1; b * k2; c * k1; c * k2]%Z).
Proof.
  cbv -[Z.add Z.mul]. do 2 apply f_equal.
  repeat (apply f_equal2; [ring|]). reflexivity.
Qed.

Lemma full_layer_shapes : well_shaped full_layer [X2; A2; Z2] 2 2 3.
Proof.
  constructor.
  - exists X2. split; reflexivity.
  - exists A2. split; reflexivity.
  - eexists. split; reflexivity.
  - intros _. split.
    + eexists. split; reflexivity.
    + intros A E. injection E as <-. split; reflexivity.
  - intros EK E. injection E as <-. exists Z2, 1. repeat split.
  - intros _. eexists. split; reflexivity.
Defined.


Lemma call_plain_witness :
  exists AX Y,
    matmul A2 X2 = Ok AX
    /\ matmul AX (Tensor [2; 3] [1; 2; 3; 1; 2; 3]%float) = Ok Y
    /\ call [X2; A2] plain_layer = (Ok Y, plain_layer)
    /\ Y = tabulate [2; 3]
             (aggregated A2 X2 (Tensor [2; 3] [1; 2; 3; 1; 2; 3]%float) 2 2).
Proof.
  apply (@call_plain float _ _ plain_layer X2 A2
           (Tensor [2; 3] [1; 2; 3; 1; 2; 3]%float) 2 2 3); reflexivity.
Defined.

Lemma edge_term_added_witness :
  pre_activation [X2; A2; Z2] full_layer
  = (Ok (tabulate [2; 3]
           (with_bias full_layer (fun idx =>
              radd (with_root full_layer (adjacency_used full_layer A2) X2 2
                      (aggregated (adjacency_used full_layer A2) X2
                         (Tensor [2; 3] [1; 2; 3; 1; 2; 3]%float) 2 2) idx)
                   (sum 2 (fun j => sum 1 (fun e =>
                      rmul (rmul (get (adjacency_used full_layer A2) [ix idx 0; j])
                                 (get Z2 [ix idx 0; j; e]))
                           (get (Tensor [1; 3] [3; 1; 2]%float) [e; ix idx 1]))))))),
     full_layer).
Proof.
  apply (proj1 (@edge_term_added float _ _ full_layer X2 A2 Z2
                  (Tensor [2; 3] [1; 2; 3; 1; 2; 3]%float)
                  (Tensor [1; 3] [3; 1; 2]%float) 2 2 3 1
                  full_layer_shapes eq_refl eq_refl eq_refl)).
Defined.

Lemma edge_kernel_created_witness :
  (edge_kernel full_layer <> None
   <-> exists s0 s1 s2,
         [[2; 2]; [2; 2]; [2; 2; 1]] = [s0; s1; s2]
         /\ s0 <> [] /\ s2 <> [0] /\ s2 <> [])
  /\ (forall s0 s1 s2,
        [[2; 2]; [2; 2]; [2; 2; 1]] = [s0; s1; s2] ->
        s0 <> [] -> s2 <> [0] -> s2 <> [] ->
        fst (build [[2; 2]; [2; 2]; [2; 2; 1]]
               (__init__ 3 false true linear true (drawn 0) zeros)) = Ok tt
        /\ edge_kernel full_layer
           = Some (add_weight [last s2 0; 3] (drawn 0) "edge_kernel"))
  /\ (forall s0 s1,
        [[2; 2]; [2; 2]; [2; 2; 1]] = [s0; s1; []] ->
        fst (build [[2; 2]; [2; 2]; [2; 2; 1]]
               (__init__ 3 false true linear true (drawn 0) zeros))
        = Raise IndexError)
  /\ (fst (build [[2; 2]; [2; 2]; [2; 2; 1]]
             (__init__ 3 false true linear true (drawn 0) zeros)) = Ok tt ->
      (edge_kernel full_layer <> None
       <-> exists s2,
             nth_error [[2; 2]; [2; 2]; [2; 2; 1]] 2 = Some s2 /\ s2 <> [0])).
Proof.
  apply (@edge_kernel_created float
           (__init__ 3 false true linear true (drawn 0) zeros)
           [[2; 2]; [2; 2]; [2; 2; 1]]); reflexivity.
Defined.

(** C4, the claim as stated fails: a third input of shape [(2, 2, 0)] has a
    zero-length feature axis, and [build] still creates an edge kernel (of
    shape [(0, 3)]). *)
Lemma edge_kernel_created_for_empty_axis :
  last [2; 2; 0] 1 = 0
  /\ edge_kernel
       (snd (build [[2; 2]; [2; 2]; [2; 2; 0]]
               (__init__ 3 false false linear true (@zeros float _) zeros)))
     = Some (Tensor [0; 3] []).
Proof. split; reflexivity. Qed.

(** C8, the claim as stated fails: with two inputs, the first a scalar,
    [build] raises [IndexError] at [input_shape[0][-1]]. *)
Lemma build_fails_with_two_inputs :
  length [[]; [2; 2]] = 2
  /\ fst (build [[]; [2; 2]]
            (__init__ 3 false false linear true (@zeros float _) zeros))
     = Raise IndexError.
Proof. split; reflexivity. Qed.

Lemma apply_twice_witness :
  exists r,
    __call__ [X2; A2; Z2] (set_built true full_layer)
    = (r, set_built true full_layer)
    /\ (y1 <- __call__ [X2; A2; Z2] ;; y2 <- __call__ [X2; A2; Z2] ;; ret (y1, y2))
         (set_built true full_layer)
       = (match r with Ok y => Ok (y, y) | Raise e => Raise e end,
          set_built true full_layer).
Proof.
  apply (proj1 (@apply_twice float _ _ (set_built true full_layer) [X2; A2; Z2])).
  reflexivity.
Defined.

Lemma third_input_ignored_witness :
  edge_kernel plain_layer = None
  /\ forall X A Z, call [X; A; Z] plain_layer = call [X; A] plain_layer.
Proof.
  apply (@third_input_ignored float _ _
           (__init__ 3 false false linear false (drawn 0) zeros) plain_layer
           [[2; 2]; [2; 2]]);
    [reflexivity | left; reflexivity | reflexivity].
Defined.




(** Binary64 does: [2^1023 + 2^1023] is an infinity. *)
Lemma binary64_overflows : ~ @no_overflow float _ float_zero_laws.
Proof.
  intros [_ H].
  assert (F : float_finite 0x1p1023%float) by (vm_compute; exact I).
  destruct (H 0x1p1023%float 0x1p1023%float F F) as [Ha _].
  vm_compute in Ha. exact Ha.
Qed.



Lemma rooted_layer_shapes : well_shaped rooted_layer [XZ; AZ; ZZ] 2 2 3.
Proof.
  constructor.
  - exists XZ. split; reflexivity.
  - exists AZ. split; reflexivity.
  - eexists. split; reflexivity.
  - intros _. split.
    + eexists. split; reflexivity.
    + intros A E. injection E as <-. split; reflexivity.
  - intros EK E. injection E as <-. exists ZZ, 1. repeat split.
  - intros _. eexists. split; reflexivity.
Defined.

Lemma rooted_layer_degrees i :
  i < 2 -> get (get_degrees (adjacency_used rooted_layer AZ)) [i] = 1%Z.
Proof. destruct i as [|[|i]]; intros H; [reflexivity | reflexivity | exfalso; lia]. Defined.

Lemma root_term_added_witness :
  exists Yr Yu,
    pre_activation [XZ; AZ; ZZ] rooted_layer = (Ok Yr, rooted_layer)
    /\ pre_activation [XZ; AZ; ZZ] (unrooted rooted_layer)
       = (Ok Yu, unrooted rooted_layer)
    /\ forall idx, valid [2; 3] idx ->
         get Yr idx
         = radd (get Yu idx)
             (rmul (rdiv rone 1%Z)
                (projected XZ (Tensor [2; 3] [2; 3; 1; 2; 3; 1]%Z) 2 idx)).
Proof.
  exact (proj2 (@root_term_added Z _ _ rooted_layer XZ AZ
                  (Tensor [2; 3] [1; 2; 3; 1; 2; 3]%Z)
                  (Tensor [2; 3] [2; 3; 1; 2; 3; 1]%Z) [ZZ] 2 2 3
                  eq_refl rooted_layer_shapes eq_refl eq_refl)
           1%Z rooted_layer_degrees eq_refl
           (or_intror (conj Z.add_comm Z.add_assoc))).
Defined.

Lemma stacked_outputs_witness :
  exists outputs ys built,
    StackedGraphConvolution.call [X2; A2; Z2]
      (StackedGraphConvolution.__init__ 2 3 false true)
    = (Ok outputs,
       StackedGraphConvolution.set_gc_layers built
         (StackedGraphConvolution.__init__ 2 3 false true))
    /\ outputs = ys
    /\ length outputs = 2
    /\ length ys = 2
    /\ Forall (fun y => shape y = [2; 3]) ys
    /\ Forall (fun l => activation l = linear) built
    /\ chained built (normalize_adjacency A2 true) [Z2] X2 ys
    /\ length built = 2
    /\ stack_ready true 3 2 2 (normalize_adjacency A2 true) [Z2] built.
Proof.
  apply (@stacked_outputs float _ _ (StackedGraphConvolution.__init__ 2 3 false true)
           X2 A2 [Z2] 2 2 3).
  - apply le_S, le_n.
  - reflexivity.
  - reflexivity.
  - reflexivity.
  - reflexivity.
  - intros _. split; reflexivity.
  - right. exists Z2. split; [reflexivity | right; exists 1; reflexivity].
  - split; [left; exists 0; reflexivity|].
    split; [left; exists 1; reflexivity | exact I].
Defined.

Example stacked_run :
  fst (StackedGraphConvolution.call [X2; A2; Z2]
         (StackedGraphConvolution.__init__ 2 3 true true))
  = Ok [Tensor [2; 3] [498; 414; 312; 505; 404; 321]%float].
Proof. vm_compute. reflexivity. Qed.

(** C5, the claim as stated fails: a stack of no layers under
    [last_layer_only] returns the empty sequence, not a sequence of
    length 1. *)
Lemma stacked_outputs_no_layer :
  fst (StackedGraphConvolution.call [X2; A2]
         (StackedGraphConvolution.__init__ 0 3 true false))
  = Ok [].
Proof. reflexivity. Qed.

End Runs.

(** * Further properties of [build], [call] and the stack *)

(** ** Weight instantiation *)

Section MoreBuildFacts.
Import GraphConvolution.
Context {R : Type}.

(** X1.  A [build] that returns has created [kernel] of shape [(F, F_)],
    [F] the last axis of the first input shape, from the kernel
    initializer; [bias] of shape [(F_,)] from the bias initializer exactly
    when [use_bias] holds; [rooted_kernel] of shape [(F, F_)] from the
    kernel initializer exactly when [rooted_subtree] holds.  A weight that
    is not created is left as it was, and so are the configuration and
    [built]. *)
Theorem build_weights (self self' : layer R) (input_shape : list (list nat))
  (s0 : list nat) :
  nth_error input_shape 0 = Some s0 ->
  build input_shape self = (Ok tt, self') ->
  kernel self'
  = Some (add_weight [last s0 0; F_ self] (kernel_initializer self) "kernel")
  /\ bias self'
     = (if use_bias self
        then Some (add_weight [F_ self] (bias_initializer self) "bias")
        else bias self)
  /\ rooted_kernel self'
     = (if rooted_subtree self
        then Some (add_weight [last s0 0; F_ self] (kernel_initializer self)
                     "rooted_kernel")
        else rooted_kernel self)
  /\ configuration self' = configuration self
  /\ built self' = built self.
Proof.
  intros H0 Hb.
  destruct (arity_ok_inv (build_ok_arity _ _ Hb)) as (t0 & s1 & rest & -> & Hrest).
  simpl in H0. injection H0 as ->.
  rewrite build_unfold in Hb by exact Hrest. cbv zeta in Hb.
  destruct s0 as [|d0 s0]; [discriminate|].
  destruct self as [F' an rs ac ub ki bi k b rk ek bu].
  cbn [use_bias rooted_subtree F_ kernel_initializer bias_initializer] in *.
  destruct rest as [|s2 rest].
  - injection Hb as <-. destruct ub, rs; repeat split.
  - destruct (shape_eqb s2 [0]).
    + injection Hb as <-. destruct ub, rs; repeat split.
    + destruct s2 as [|d2 s2]; [discriminate|].
      injection Hb as <-. destruct ub, rs; repeat split.
Qed.

(** X2.  A [build] that raises does so in one of three ways: the arity
    assertion, with the layer untouched; [IndexError] on a node-feature
    shape without axes, with the layer untouched; [IndexError] on a third
    shape without axes, after [kernel] (and [bias], [rooted_kernel]) have
    been created and with [edge_kernel] untouched. *)
Theorem build_failure (self : layer R) (input_shape : list (list nat)) (e : error) :
  fst (build input_shape self) = Raise e ->
  (e = AssertionError /\ ~ arity_ok input_shape
   /\ snd (build input_shape self) = self)
  \/ (e = IndexError /\ arity_ok input_shape
      /\ nth_error input_shape 0 = Some []
      /\ snd (build input_shape self) = self)
  \/ (e = IndexError /\ arity_ok input_shape
      /\ nth_error input_shape 2 = Some []
      /\ (exists s0, nth_error input_shape 0 = Some s0
          /\ kernel (snd (build input_shape self))
             = Some (add_weight [last s0 0; F_ self] (kernel_initializer self)
                       "kernel"))
      /\ edge_kernel (snd (build input_shape self)) = edge_kernel self).
Proof.
  intros He.
  destruct (arity_ok_dec input_shape) as [Hok|Hno].
  2: { rewrite (build_arity_error self Hno) in *. simpl in He.
       injection He as <-. left. repeat split. exact Hno. }
  right.
  destruct (arity_ok_inv Hok) as (s0 & s1 & rest & E & Hrest). subst input_shape.
  rewrite build_unfold in * by exact Hrest. cbv zeta in *.
  destruct s0 as [|d0 s0].
  { simpl in He. injection He as <-. left. repeat split. exact Hok. }
  right.
  destruct self as [F' an rs ac ub ki bi k b rk ek bu].
  cbn [use_bias rooted_subtree F_ kernel_initializer bias_initializer] in *.
  destruct rest as [|s2 rest]; [discriminate|].
  destruct (shape_eqb s2 [0]); [discriminate|].
  destruct s2 as [|d2 s2]; [|discriminate].
  simpl in He. injection He as <-. simpl.
  repeat split; [exact Hok | | destruct ub, rs; reflexivity].
  eexists. split; [reflexivity|]. destruct ub, rs; reflexivity.
Qed.

End MoreBuildFacts.

(** ** Forward computation of one layer *)

Section MoreCallFacts.
Import GraphConvolution.
Context {R : Type} {SR : Scalar R} {U : Utils R}.

Lemma matmul_mismatch (a b : tensor R) m k k' n :
  shape a = [m; k] -> shape b = [k'; n] -> k <> k' ->
  matmul a b = Raise InvalidArgumentError.
Proof.
  intros Ha Hb Hk. unfold matmul. rewrite Ha, Hb.
  destruct (Nat.eqb_spec k k'); [contradiction | reflexivity].
Qed.

(** X3.  [call] raises [InvalidArgumentError], and leaves the layer as it
    was, when the adjacency used has not as many columns as [X] has rows,
    and when [X] has not as many columns as the kernel has rows (a layer
    built for another feature width). *)
Theorem call_shape_mismatch (self : layer R) (X A : tensor R)
  (rest : list (tensor R)) :
  (forall m k k' f,
     shape (adjacency_used self A) = [m; k] -> shape X = [k'; f] -> k <> k' ->
     call (X :: A :: rest) self = (Raise InvalidArgumentError, self))
  /\ (forall K m n f f' g,
       shape (adjacency_used self A) = [m; n] -> shape X = [n; f'] ->
       kernel self = Some K -> shape K = [f; g] -> f' <> f ->
       call (X :: A :: rest) self = (Raise InvalidArgumentError, self)).
Proof.
  split.
  - intros m k k' f sA sX Hk.
    unfold call, pre_activation, bind, get_self, index, lift. cbn [nth_error ret].
    fold (adjacency_used self A).
    rewrite (matmul_mismatch _ _ sA sX Hk). reflexivity.
  - intros K m n f f' g sA sX HK sK Hf.
    unfold call, pre_activation, bind, get_self, index, lift, populated.
    cbn [nth_error ret]. fold (adjacency_used self A).
    rewrite (matmul_shapes _ _ sA sX), HK. cbn [ret].
    rewrite (@matmul_mismatch (tabulate [m; f'] _) K m f' f g eq_refl sK Hf).
    reflexivity.
Qed.

(** X4.  [call] raises [IndexError] on fewer than two inputs; it raises
    [ValueError] on a layer without kernel once [A @ X] has been computed;
    and a layer that has an edge kernel raises [IndexError] at [inputs[2]]
    when it is called on two inputs whose aggregation and root term are
    defined.  The layer is left as it was each time. *)
Theorem call_missing_operand (self : layer R) :
  (forall inputs, length inputs < 2 ->
     call inputs self = (Raise IndexError, self))
  /\ (forall X A rest m n f,
       kernel self = None ->
       shape (adjacency_used self A) = [m; n] -> shape X = [n; f] ->
       call (X :: A :: rest) self = (Raise ValueError, self))
  /\ (forall X A K EK n f g,
       edge_kernel self = Some EK ->
       shape X = [n; f] -> shape (adjacency_used self A) = [n; n] ->
       kernel self = Some K -> shape K = [f; g] ->
       (rooted_subtree self = true ->
        (exists RK, rooted_kernel self = Some RK /\ shape RK = [f; g])
        /\ shape (get_degrees (adjacency_used self A)) = [n]) ->
       call [X; A] self = (Raise IndexError, self)).
Proof.
  split; [|split].
  - intros [|X [|A inputs]] H; [reflexivity | reflexivity | simpl in H; lia].
  - intros X A rest m n f HK sA sX.
    unfold call, pre_activation, bind, get_self, index, lift, populated.
    cbn [nth_error ret]. fold (adjacency_used self A).
    rewrite (matmul_shapes _ _ sA sX), HK. reflexivity.
  - intros X A K EK n f g HE sX sA HK sK Hroot.
    unfold call, pre_activation, bind, get_self, index, lift, populated, ret.
    cbn [nth_error]. fold (adjacency_used self A).
    set (A' := adjacency_used self A) in *.
    rewrite (matmul_shapes A' X sA sX), HK.
    rewrite (@matmul_shapes _ _ (tabulate [n; f] _) K n f g eq_refl sK).
    rewrite HE.
    destruct (rooted_subtree self) eqn:Er; [|reflexivity].
    destruct (Hroot eq_refl) as [(RK & HRK & sRK) sD].
    rewrite HRK, (matmul_shapes X RK sX sRK). unfold tmul, tadd.
    rewrite (@broadcast_column _ _ rmul (scalar_div rone (get_degrees A'))
               (tabulate [n; g] _) n g sD eq_refl).
    rewrite (@broadcast_same _ _ radd (tabulate [n; g] _) (tabulate [n; g] _)
               n g eq_refl eq_refl).
    reflexivity.
Qed.

Lemma get_tmap_tabulate (h : R -> R) sh (F : list nat -> R) idx :
  valid sh idx -> get (tmap h (tabulate sh F)) idx = h (F idx).
Proof.
  intros H. unfold get, tmap, tabulate. simpl. rewrite map_map.
  rewrite nth_map_seq by (apply ravel_lt; exact H).
  rewrite unravel_ravel by exact H. reflexivity.
Qed.

Lemma wf_tmap (h : R -> R) (t : tensor R) : wf t -> wf (tmap h t).
Proof. unfold wf, tmap. simpl. rewrite length_map. auto. Qed.

(** X5.  On inputs of compatible shapes [call] returns, for either
    activation, a well-formed matrix of shape [(n, F_out)] and leaves the
    layer as it was.  Its entry [(i, c)] is the activation of
    [A @ X @ kernel] plus the root term, plus the edge term, plus the bias,
    each present as the layer has it: the value itself under [linear], its
    maximum with zero under [relu]. *)
Theorem call_output (self : layer R) (inputs : list (tensor R)) (n f g : nat) :
  well_shaped self inputs n f g ->
  exists Y,
    call inputs self = (Ok Y, self)
    /\ shape Y = [n; g] /\ wf Y
    /\ forall idx, valid [n; g] idx ->
         get Y idx
         = match activation self with
           | linear => spec_output self inputs n f idx
           | relu => rmax (spec_output self inputs n f idx) rzero
           end.
Proof.
  intros W.
  exists (apply_activation (activation self)
            (tabulate [n; g] (spec_output self inputs n f))).
  split; [apply (call_spec W)|].
  destruct (activation self); cbn [apply_activation].
  - split; [reflexivity|]. split; [apply wf_tabulate|].
    intros idx H. apply get_tabulate. exact H.
  - split; [reflexivity|]. split; [apply wf_tmap, wf_tabulate|].
    intros idx H. apply get_tmap_tabulate. exact H.
Qed.

End MoreCallFacts.

(** ** The first application of a layer *)

Section FirstCallFacts.
Import GraphConvolution.
Context {R : Type} {SR : Scalar R} {U : Utils R}.

(** X6.  Applied for the first time to inputs [[X; A] ++ extra] of
    compatible shapes, a layer made by the constructor, whatever its
    configuration, builds its weights for these shapes and returns a matrix
    of shape [(n, F_)].  It is left built, with the configuration it had,
    and [call] on the same inputs returns the same matrix from then on. *)
Theorem first_call (F_out : nat) (an rs : bool) (act : activation_fn) (ub : bool)
  (ki bi : initializer R) (X A : tensor R) (extra : list (tensor R)) (n f : nat) :
  shape X = [n; f] ->
  shape (if an then normalize_adjacency A rs else A) = [n; n] ->
  (rs = true ->
   shape (get_degrees (if an then normalize_adjacency A rs else A)) = [n]
   /\ wf (get_degrees (if an then normalize_adjacency A rs else A))) ->
  extra_ok n extra ->
  exists Y self',
    __call__ (X :: A :: extra) (__init__ F_out an rs act ub ki bi) = (Ok Y, self')
    /\ shape Y = [n; F_out]
    /\ built self' = true
    /\ well_shaped self' (X :: A :: extra) n f F_out
    /\ call (X :: A :: extra) self' = (Ok Y, self')
    /\ configuration self' = configuration (__init__ F_out an rs act ub ki bi).
Proof.
  intros sX sA HD Hextra.
  assert (Hlen : length (map (@shape R) extra) <= 1).
  { rewrite length_map. destruct Hextra as [->|(Z & -> & _)]; simpl; lia. }
  unfold __call__, bind, get_self, modify, ret.
  cbn [__init__ built map].
  rewrite build_unfold by exact Hlen.
  rewrite sX. cbv zeta.
  cbn [__init__ use_bias rooted_subtree F_ kernel_initializer bias_initializer last].
  assert (Fin : forall L,
            well_shaped L (X :: A :: extra) n f F_out ->
            configuration L = configuration (__init__ F_out an rs act ub ki bi) ->
            exists Y self',
              call (X :: A :: extra) (set_built true L) = (Ok Y, self')
              /\ shape Y = [n; F_out]
              /\ built self' = true
              /\ well_shaped self' (X :: A :: extra) n f F_out
              /\ call (X :: A :: extra) self' = (Ok Y, self')
              /\ configuration self'
                 = configuration (__init__ F_out an rs act ub ki bi)).
  { intros L W HC.
    assert (W' : well_shaped (set_built true L) (X :: A :: extra) n f F_out).
    { destruct W; constructor; assumption. }
    exists (apply_activation (activation (set_built true L))
              (tabulate [n; F_out]
                 (spec_output (set_built true L) (X :: A :: extra) n f))).
    exists (set_built true L).
    rewrite (call_spec W').
    split; [reflexivity|].
    split; [destruct (activation (set_built true L)); reflexivity|].
    split; [reflexivity|]. split; [exact W'|]. split; [reflexivity | exact HC]. }
  destruct Hextra as [->|(Z & -> & [sZ|(fe & sZ)])]; cbn [map]; rewrite ?sZ.
  - destruct ub, rs; apply Fin; try reflexivity; constructor;
      unfold adjacency_used; cbn; eauto; try discriminate;
      intros _; (split; [eauto | intros A0 E; injection E as <-; apply HD; reflexivity]).
  - destruct (shape_eqb_spec [0] [0]) as [_|N]; [|congruence].
    destruct ub, rs; apply Fin; try reflexivity; constructor;
      unfold adjacency_used; cbn; eauto; try discriminate;
      intros _; (split; [eauto | intros A0 E; injection E as <-; apply HD; reflexivity]).
  - destruct (shape_eqb_spec [n; n; fe] [0]) as [E|_]; [discriminate E|].
    destruct ub, rs; apply Fin; try reflexivity; constructor;
      unfold adjacency_used; cbn; eauto; try discriminate;
      try (intros _; (split; [eauto | intros A0 E; injection E as <-; apply HD; reflexivity]));
      intros EK E; injection E as <-; exists Z, fe; auto.
Qed.

End FirstCallFacts.

(** ** What the methods of a layer leave alone *)

Section FrameFacts.

Lemma keeps_ret {S A T} (f : S -> T) (a : A) : keeps f (@ret S A a).
Proof. intros s. reflexivity. Qed.

Lemma keeps_raise {S A T} (f : S -> T) e : keeps f (@raise S A e).
Proof. intros s. reflexivity. Qed.

Lemma keeps_get_self {S T} (f : S -> T) : keeps f (@get_self S).
Proof. intros s. reflexivity. Qed.

Lemma keeps_assert {S T} (f : S -> T) b : keeps f (@assert S b).
Proof. intros s. destruct b; reflexivity. Qed.

Lemma keeps_index {S A T} (f : S -> T) (l : list A) i : keeps f (@index S A l i).
Proof. intros s. unfold index. destruct (nth_error l i); reflexivity. Qed.

Lemma keeps_index_last {S A T} (f : S -> T) (l : list A) :
  keeps f (@index_last S A l).
Proof. intros s. unfold index_last. destruct (rev l); reflexivity. Qed.

Lemma keeps_modify {S T} (f : S -> T) (g : S -> S) :
  (forall s, f (g s) = f s) -> keeps f (modify g).
Proof. intros H s. apply H. Qed.

Lemma keeps_bind {S A B T} (f : S -> T) (c : M S A) (k : A -> M S B) :
  keeps f c -> (forall a, keeps f (k a)) -> keeps f (bind c k).
Proof.
  intros Hc Hk s. unfold bind. specialize (Hc s).
  destruct (c s) as [[a|e] s']; simpl in *; [rewrite Hk | ]; exact Hc.
Qed.

Lemma keeps_reads_only {S A T} (f : S -> T) (c : M S A) :
  reads_only c -> keeps f c.
Proof. intros H s. rewrite H. reflexivity. Qed.

End FrameFacts.

Ltac solve_keeps :=
  repeat first
    [ apply keeps_ret | apply keeps_raise | apply keeps_get_self
    | apply keeps_assert | apply keeps_index | apply keeps_index_last
    | apply keeps_modify; intros []; reflexivity
    | apply keeps_bind; [| intros ?]
    | progress cbv zeta
    | match goal with
      | |- keeps _ (if ?b then _ else _) => destruct b
      | |- keeps _ (match ?x with _ => _ end) => destruct x
      end ].

Section LayerFrameFacts.
Import GraphConvolution.
Context {R : Type} {SR : Scalar R} {U : Utils R}.

Lemma build_keeps_configuration input_shape :
  keeps (@configuration R) (build input_shape).
Proof. unfold build. solve_keeps. Qed.

Lemma call_reads_only inputs : reads_only (call inputs).
Proof. intros s. apply call_state. Qed.

Lemma dunder_call_keeps_configuration inputs :
  keeps (@configuration R) (__call__ inputs).
Proof.
  unfold __call__.
  apply keeps_bind; [apply keeps_get_self | intros self].
  apply keeps_bind; [| intros _; apply keeps_reads_only, call_reads_only].
  destruct (built self); [apply keeps_ret|].
  apply keeps_bind; [apply build_keeps_configuration | intros _].
  apply keeps_modify. intros []; reflexivity.
Qed.

(** X7.  The configuration a layer got from its constructor (width,
    flags, activation, initializers) is never changed by [build], [call]
    or [layer(inputs)], whether they return or raise. *)
Theorem configuration_kept (input_shape : list (list nat))
  (inputs : list (tensor R)) :
  keeps (@configuration R) (build input_shape)
  /\ keeps (@configuration R) (call inputs)
  /\ keeps (@configuration R) (__call__ inputs).
Proof.
  split; [apply build_keeps_configuration|].
  split; [apply keeps_reads_only, call_reads_only|].
  apply dunder_call_keeps_configuration.
Qed.

(** The empty sentinel and no third input build the same weights. *)
Lemma build_sentinel (self : layer R) (s0 s1 : list nat) :
  build [s0; s1; [0]] self = build [s0; s1] self.
Proof.
  rewrite !build_unfold by (simpl; lia).
  destruct s0; [reflexivity|]. reflexivity.
Qed.

Lemma build_keeps_no_edge_kernel (self : layer R) (s0 s1 : list nat) :
  edge_kernel self = None ->
  edge_kernel (snd (build [s0; s1] self)) = None.
Proof.
  intros H. rewrite build_unfold by (simpl; lia).
  destruct s0; [exact H|]. cbv zeta.
  destruct (rooted_subtree self), (use_bias self); exact H.
Qed.

Lemma call_without_edge_kernel (self : layer R) (X A Z : tensor R) :
  edge_kernel self = None -> call [X; A; Z] self = call [X; A] self.
Proof.
  intros He. unfold call, pre_activation, bind, get_self, index.
  simpl nth_error. rewrite He. reflexivity.
Qed.

Lemma dunder_call_sentinel (self : layer R) (X A Z : tensor R) :
  edge_kernel self = None -> shape Z = [0] ->
  __call__ [X; A; Z] self = __call__ [X; A] self
  /\ edge_kernel (snd (__call__ [X; A] self)) = None.
Proof.
  intros He sZ. unfold __call__, bind, get_self, modify, ret.
  destruct (built self).
  - split; [apply call_without_edge_kernel, He|].
    rewrite call_state. exact He.
  - cbn [map]. rewrite sZ, build_sentinel.
    pose proof (build_keeps_no_edge_kernel self (shape X) (shape A) He) as Hb.
    destruct (build [shape X; shape A] self) as [[[]|e] sb]; simpl in Hb.
    + split; [apply call_without_edge_kernel; exact Hb|].
      rewrite call_state. exact Hb.
    + split; [reflexivity | exact Hb].
Qed.

(** X8.  A layer without edge kernel treats a third input of the sentinel
    shape [(0,)] as no third input at all: [layer([X, A, Z])] and
    [layer([X, A])] build the same weights, return or raise the same, and
    leave the same layer, which still has no edge kernel. *)
Theorem sentinel_is_no_edge_input (self : layer R) (X A Z : tensor R) :
  edge_kernel self = None -> shape Z = [0] ->
  __call__ [X; A; Z] self = __call__ [X; A] self
  /\ edge_kernel (snd (__call__ [X; A; Z] self)) = None.
Proof.
  intros He sZ. destruct (@dunder_call_sentinel self X A Z He sZ) as [E H].
  rewrite E. split; [reflexivity | exact H].
Qed.

End LayerFrameFacts.

(** ** The stack: frames, repeated calls, output selection *)

Section MoreStackFacts.
Import StackedGraphConvolution.
Context {R : Type} {SR : Scalar R} {U : Utils R}.

Lemma length_replace_nth {A} (a : A) l : forall i,
  length (replace_nth i a l) = length l.
Proof.
  induction l as [|b l IH]; intros [|i]; simpl; try reflexivity.
  rewrite IH. reflexivity.
Qed.

Lemma nth_error_replace_nth_other {A} (a : A) l : forall i j,
  i <> j -> nth_error (replace_nth i a l) j = nth_error l j.
Proof.
  induction l as [|b l IH]; intros [|i] [|j] H; simpl; try reflexivity.
  - contradiction.
  - apply IH. congruence.
Qed.

Lemma nth_error_replace_nth_same {A} (a b : A) l : forall i,
  nth_error l i = Some b -> nth_error (replace_nth i a l) i = Some a.
Proof.
  induction l as [|c l IH]; intros [|i] H; simpl in *; try discriminate.
  - reflexivity.
  - apply IH. exact H.
Qed.

Lemma replace_nth_same {A} (a : A) l : forall i,
  nth_error l i = Some a -> replace_nth i a l = l.
Proof.
  induction l as [|c l IH]; intros [|i] H; simpl in *; try discriminate.
  - congruence.
  - rewrite IH by exact H. reflexivity.
Qed.

Lemma map_replace_nth {A B} (f : A -> B) (a b : A) l : forall i,
  nth_error l i = Some b -> f a = f b ->
  map f (replace_nth i a l) = map f l.
Proof.
  induction l as [|c l IH]; intros [|i] H E; simpl in *; try discriminate.
  - injection H as ->. rewrite E. reflexivity.
  - rewrite IH by assumption. reflexivity.
Qed.

Lemma set_gc_layers_same (s : model R) : set_gc_layers (gc_layers s) s = s.
Proof. destruct s. reflexivity. Qed.

Lemma on_layer_some {A} i (c : M (GraphConvolution.layer R) A) (s : model R) l :
  nth_error (gc_layers s) i = Some l ->
  on_layer i c s
  = (fst (c l), set_gc_layers (replace_nth i (snd (c l)) (gc_layers s)) s).
Proof. intros H. unfold on_layer. rewrite H. destruct (c l). reflexivity. Qed.

Lemma on_layer_none {A} i (c : M (GraphConvolution.layer R) A) (s : model R) :
  nth_error (gc_layers s) i = None -> on_layer i c s = (Raise IndexError, s).
Proof. intros H. unfold on_layer. rewrite H. reflexivity. Qed.

(** One turn of the loop, whatever the layer answers. *)
Lemma for_layers_cons i rest (A : tensor R) extra x outputs (s : model R) :
  for_layers (i :: rest) A extra x outputs s
  = match on_layer i (GraphConvolution.__call__ ([x; A] ++ extra)) s with
    | (Ok y, s') =>
        for_layers rest A extra (apply_activation (activation s') y)
          (if negb (last_layer_only s') || (i + 1 =? length (gc_layers s'))
           then outputs ++ [y] else outputs)
          s'
    | (Raise e, s') => (Raise e, s')
    end.
Proof. reflexivity. Qed.

(** What one application of a layer leaves alone in the stack. *)
Lemma on_layer_frame i inputs (s : model R) :
  let s' := snd (on_layer i (GraphConvolution.__call__ inputs) s) in
  stack_configuration s' = stack_configuration s
  /\ length (gc_layers s') = length (gc_layers s)
  /\ forall j, i <> j -> nth_error (gc_layers s') j = nth_error (gc_layers s) j.
Proof.
  cbv zeta. destruct (nth_error (gc_layers s) i) as [l|] eqn:E.
  - rewrite on_layer_some with (l := l) by exact E. cbn [snd].
    unfold stack_configuration. cbn [set_gc_layers num_layers last_layer_only
      activation rooted_subtree gc_layers].
    rewrite map_replace_nth with (b := l);
      [| exact E | apply (dunder_call_keeps_configuration inputs l)].
    rewrite length_replace_nth.
    repeat split. intros j H. apply nth_error_replace_nth_other. exact H.
  - rewrite on_layer_none by exact E. repeat split.
Qed.

Lemma for_layers_frame (A : tensor R) extra : forall indices x outputs (s : model R),
  let s1 := snd (for_layers indices A extra x outputs s) in
  stack_configuration s1 = stack_configuration s
  /\ length (gc_layers s1) = length (gc_layers s)
  /\ forall j, ~ In j indices -> nth_error (gc_layers s1) j = nth_error (gc_layers s) j.
Proof.
  induction indices as [|i rest IH]; intros x outputs s; cbv zeta.
  - repeat split.
  - rewrite for_layers_cons.
    destruct (on_layer_frame i ([x; A] ++ extra) s) as (Hc & Hl & Hn).
    destruct (on_layer i (GraphConvolution.__call__ ([x; A] ++ extra)) s)
      as [[y|e] s'] eqn:E; cbn [snd] in *.
    + match goal with |- context [for_layers rest A extra ?x' ?o' s'] =>
        destruct (IH x' o' s') as (Hc' & Hl' & Hn') end.
      split; [congruence|]. split; [congruence|].
      intros j Hj. rewrite Hn' by (intros H; apply Hj; right; exact H).
      apply Hn. intros ->. apply Hj. left. reflexivity.
    + split; [exact Hc|]. split; [exact Hl|].
      intros j Hj. apply Hn. intros ->. apply Hj. left. reflexivity.
Qed.

Lemma call_frame (inputs : list (tensor R)) (s : model R) :
  stack_configuration (snd (call inputs s)) = stack_configuration s
  /\ length (gc_layers (snd (call inputs s))) = length (gc_layers s).
Proof.
  unfold call, bind, get_self, index.
  destruct (nth_error inputs 0) as [x|]; [|split; reflexivity].
  destruct (nth_error inputs 1) as [a|]; [|split; reflexivity].
  cbn [ret].
  destruct (for_layers_frame (normalize_adjacency a (rooted_subtree s))
              (skipn 2 inputs) (seq 0 (length (gc_layers s))) x [] s)
    as (Hc & Hl & _).
  split; assumption.
Qed.

(** X9.  [call] on a stack never changes what the constructor fixed:
    [num_layers], [last_layer_only], the activation, [rooted_subtree], the
    number of layers and the configuration of each of them, whether it
    returns or raises. *)
Theorem stack_configuration_kept (inputs : list (tensor R)) :
  keeps (@stack_configuration R) (call inputs)
  /\ keeps (fun s : model R => length (gc_layers s)) (call inputs).
Proof. split; intros s; apply call_frame. Qed.

Lemma stack_configuration_fields (a b : model R) :
  stack_configuration a = stack_configuration b ->
  num_layers a = num_layers b /\ last_layer_only a = last_layer_only b
  /\ activation a = activation b /\ rooted_subtree a = rooted_subtree b.
Proof. unfold stack_configuration. intros H. injection H. auto. Qed.

(** An application that returns leaves a built layer on which the same
    application returns the same, and changes nothing. *)
Lemma layer_call_again (inputs : list (tensor R)) (l l' : GraphConvolution.layer R) y :
  GraphConvolution.__call__ inputs l = (Ok y, l') ->
  GraphConvolution.__call__ inputs l' = (Ok y, l').
Proof.
  intros H.
  assert (Hs : GraphConvolution.built l' = true
               /\ GraphConvolution.call inputs l' = (Ok y, l')).
  { unfold GraphConvolution.__call__, bind, get_self, modify, ret in H.
    destruct (GraphConvolution.built l) eqn:Hb.
    - pose proof (call_state l inputs) as Hc. rewrite H in Hc.
      simpl in Hc. subst l'. split; assumption.
    - destruct (GraphConvolution.build (map (@shape R) inputs) l) as [[[]|e] sb];
        [|discriminate].
      pose proof (call_state (GraphConvolution.set_built true sb) inputs) as Hc.
      rewrite H in Hc. simpl in Hc. subst l'. split; [reflexivity | exact H]. }
  destruct Hs as [Hb Hc]. rewrite (call_built _ _ Hb). exact Hc.
Qed.

Lemma for_layers_again (A : tensor R) extra : forall indices,
  NoDup indices ->
  forall x outputs (s : model R) r s1,
    for_layers indices A extra x outputs s = (Ok r, s1) ->
    for_layers indices A extra x outputs s1 = (Ok r, s1).
Proof.
  induction indices as [|i rest IH]; intros Hnd x outputs s r s1 H.
  - simpl in *. unfold ret in *. injection H as <- <-. reflexivity.
  - inversion Hnd as [|? ? Hi Hrest]; subst.
    rewrite for_layers_cons in H. rewrite for_layers_cons.
    destruct (nth_error (gc_layers s) i) as [l|] eqn:E;
      [| rewrite on_layer_none in H by exact E; discriminate].
    rewrite on_layer_some with (l := l) in H by exact E.
    destruct (GraphConvolution.__call__ ([x; A] ++ extra) l) as [[y|e] l'] eqn:Ec;
      cbn [fst snd] in H; [|discriminate].
    set (s' := set_gc_layers (replace_nth i l' (gc_layers s)) s) in *.
    match type of H with for_layers rest A extra ?x' ?o' s' = _ =>
      destruct (for_layers_frame A extra rest x' o' s') as (Hc & Hl & Hn) end.
    cbv zeta in Hc, Hl, Hn. rewrite H in Hc, Hl, Hn. cbn [snd] in Hc, Hl, Hn.
    destruct (stack_configuration_fields Hc) as (_ & Hlo & Hact & _).
    assert (E1 : nth_error (gc_layers s1) i = Some l').
    { rewrite (Hn i Hi). subst s'. cbn [gc_layers set_gc_layers].
      apply nth_error_replace_nth_same with (b := l). exact E. }
    rewrite on_layer_some with (l := l') by exact E1.
    rewrite (layer_call_again _ _ Ec). cbn [fst snd].
    rewrite (replace_nth_same _ _ E1), set_gc_layers_same.
    rewrite Hlo, Hact, Hl.
    apply (IH Hrest _ _ _ _ _ H).
Qed.

(** X10.  A [call] of the stack that returns leaves a stack on which the
    same [call] returns the same outputs and changes nothing: the weights
    built by the first call are the ones every later call uses. *)
Theorem stacked_call_again (self self1 : model R) (inputs outputs : list (tensor R)) :
  call inputs self = (Ok outputs, self1) ->
  call inputs self1 = (Ok outputs, self1).
Proof.
  intros H.
  destruct (call_frame inputs self) as [Hc Hl].
  rewrite H in Hc, Hl. cbn [snd] in Hc, Hl.
  destruct (stack_configuration_fields Hc) as (_ & _ & _ & Hr).
  unfold call, bind, get_self, index in *.
  destruct (nth_error inputs 0) as [x|]; [|discriminate].
  destruct (nth_error inputs 1) as [a|]; [|discriminate].
  cbn [ret] in *. rewrite Hr, Hl.
  apply for_layers_again with (s := self); [apply seq_NoDup | exact H].
Qed.

End MoreStackFacts.

Section StackOutputFacts.
Import StackedGraphConvolution.
Context {R : Type} {SR : Scalar R} {U : Utils R}.

Lemma for_layers_length (A : tensor R) extra : forall m a x outputs (s : model R) r s1,
  length (gc_layers s) = a + m ->
  for_layers (seq a m) A extra x outputs s = (Ok r, s1) ->
  length r = length outputs
             + (if last_layer_only s then Nat.min 1 m else m).
Proof.
  induction m as [|m IH]; intros a x outputs s r s1 Hlen H.
  - simpl in H. unfold ret in H. injection H as <- _.
    destruct (last_layer_only s); simpl; lia.
  - cbn [seq] in H. rewrite for_layers_cons in H.
    destruct (on_layer_frame a ([x; A] ++ extra) s) as (Hc & Hl & _).
    cbv zeta in Hc, Hl.
    destruct (on_layer a (GraphConvolution.__call__ ([x; A] ++ extra)) s)
      as [[y|e] s'] eqn:E; cbn [snd] in *; [|discriminate].
    destruct (stack_configuration_fields Hc) as (_ & Hlo & _ & _).
    apply IH in H; [| lia]. rewrite H, Hl, Hlen, Hlo.
    destruct (last_layer_only s); simpl negb; simpl orb.
    + destruct (Nat.eqb_spec (a + 1) (a + S m)) as [E1|E1].
      * assert (m = 0) by lia. subst m. rewrite length_app. simpl. lia.
      * destruct m; [lia|]. simpl. lia.
    + cbv iota. rewrite length_app. simpl. lia.
Qed.

(** X11.  When [call] returns, it returns one output per layer, or a
    single one (none for an empty stack) under [last_layer_only]; for a
    stack that holds its [num_layers >= 1] layers, that number is what
    [vocab_size] answers. *)
Theorem outputs_length (self self1 : model R) (inputs outputs : list (tensor R)) :
  call inputs self = (Ok outputs, self1) ->
  length outputs = (if last_layer_only self
                    then Nat.min 1 (length (gc_layers self))
                    else length (gc_layers self))
  /\ (length (gc_layers self) = num_layers self -> 1 <= num_layers self ->
      vocab_size self1 = (Ok (length outputs), self1)).
Proof.
  intros H.
  destruct (call_frame inputs self) as [Hc _].
  rewrite H in Hc. cbn [snd] in Hc.
  destruct (stack_configuration_fields Hc) as (Hn & Hlo & _ & _).
  assert (Hlen : length outputs = (if last_layer_only self
                    then Nat.min 1 (length (gc_layers self))
                    else length (gc_layers self))).
  { unfold call, bind, get_self, index in H.
    destruct (nth_error inputs 0) as [x|]; [|discriminate].
    destruct (nth_error inputs 1) as [a|]; [|discriminate].
    cbn [ret] in H. apply for_layers_length in H; [exact H | reflexivity]. }
  split; [exact Hlen|].
  intros Hg Hpos. unfold vocab_size, bind, get_self, ret.
  rewrite Hlen, Hlo, Hn, Hg.
  destruct (last_layer_only self); [|reflexivity].
  replace (Nat.min 1 (num_layers self)) with 1 by lia. reflexivity.
Qed.

(** X12.  The stack's [call] needs the features and the adjacency: with
    fewer than two inputs it raises [IndexError]; and it hands every further
    input to the first layer, whose [build] refuses more than three inputs
    with [AssertionError].  The stack is left as it was in both cases. *)
Theorem stacked_call_arity (self : model R) :
  (forall inputs, length inputs < 2 -> call inputs self = (Raise IndexError, self))
  /\ (forall X A extra l ls,
        gc_layers self = l :: ls -> GraphConvolution.built l = false ->
        2 <= length extra ->
        call (X :: A :: extra) self = (Raise AssertionError, self)).
Proof.
  split.
  - intros inputs Hlen. unfold call, bind, get_self, index.
    destruct inputs as [|x [|a rest]]; [reflexivity | reflexivity |].
    simpl in Hlen. lia.
  - intros X A extra l ls Hg Hb Hex.
    unfold call, bind, get_self, index. cbn [nth_error ret skipn].
    rewrite Hg. cbn [length seq]. rewrite for_layers_cons.
    rewrite on_layer_some with (l := l) by (rewrite Hg; reflexivity).
    assert (Hc : GraphConvolution.__call__
                   ([X; normalize_adjacency A (rooted_subtree self)] ++ extra) l
                 = (Raise AssertionError, l)).
    { unfold GraphConvolution.__call__, bind, get_self. rewrite Hb.
      rewrite build_arity_error; [reflexivity|].
      unfold arity_ok. rewrite length_map, length_app. simpl. lia. }
    rewrite Hc. cbn [fst snd]. rewrite Hg. cbn [replace_nth].
    rewrite <- Hg, set_gc_layers_same. reflexivity.
Qed.

Lemma Forall_replace_nth {T} (P : T -> Prop) (b : T) : forall l i,
  Forall P l -> P b -> Forall P (replace_nth i b l).
Proof.
  induction l as [|a l IH]; intros i Hl Hb.
  - destruct i; constructor.
  - inversion Hl; subst. destruct i; simpl; constructor; auto.
Qed.

Lemma for_layers_sentinel (A Z : tensor R) :
  shape Z = [0] ->
  forall indices x outputs (s : model R),
    Forall (fun l => GraphConvolution.edge_kernel l = None) (gc_layers s) ->
    for_layers indices A [Z] x outputs s = for_layers indices A [] x outputs s.
Proof.
  intros HZ. induction indices as [|i rest IH]; intros x outputs s Hs;
    [reflexivity|].
  rewrite !for_layers_cons.
  destruct (nth_error (gc_layers s) i) as [l|] eqn:E;
    [| rewrite !on_layer_none by exact E; reflexivity].
  assert (He : GraphConvolution.edge_kernel l = None).
  { rewrite Forall_forall in Hs. apply Hs. eapply nth_error_In. exact E. }
  rewrite !on_layer_some with (l := l) by exact E.
  cbn [app].
  destruct (dunder_call_sentinel l x A Z He HZ) as [Heq Hnone].
  rewrite Heq.
  destruct (GraphConvolution.__call__ [x; A] l) as [[y|e] l'] eqn:Ec;
    cbn [fst snd]; [|reflexivity].
  apply IH. cbn [gc_layers set_gc_layers].
  apply Forall_replace_nth; [exact Hs|].
  exact Hnone.
Qed.

(** X13.  For a stack none of whose layers holds an edge kernel, the
    sentinel third input of shape [(0,)] is the same as no third input: the
    two calls return the same and leave the same stack. *)
Theorem stacked_sentinel (self : model R) (X A Z : tensor R) :
  shape Z = [0] ->
  Forall (fun l => GraphConvolution.edge_kernel l = None) (gc_layers self) ->
  call [X; A; Z] self = call [X; A] self.
Proof.
  intros HZ Hs. unfold call, bind, get_self, index. cbn [nth_error ret skipn].
  apply for_layers_sentinel; assumption.
Qed.

Lemma on_layer_with_last_layer_only {T} b i (c : M (GraphConvolution.layer R) T)
  (s : model R) :
  on_layer i c (with_last_layer_only b s)
  = (fst (on_layer i c s), with_last_layer_only b (snd (on_layer i c s))).
Proof.
  unfold on_layer, with_last_layer_only. cbn [gc_layers].
  destruct (nth_error (gc_layers s) i) as [l|]; [|reflexivity].
  destruct (c l). reflexivity.
Qed.

Lemma for_layers_policy (A : tensor R) extra : forall m a x outsF outsT (s : model R) r s1,
  length (gc_layers s) = a + m ->
  for_layers (seq a m) A extra x outsF (with_last_layer_only false s) = (Ok r, s1) ->
  exists ys s2,
    r = outsF ++ ys /\ length ys = m /\ s1 = with_last_layer_only false s2
    /\ for_layers (seq a m) A extra x outsT (with_last_layer_only true s)
       = (Ok (outsT ++ kept true ys), with_last_layer_only true s2).
Proof.
  induction m as [|m IH]; intros a x outsF outsT s r s1 Hlen H.
  - simpl in H. unfold ret in H. injection H as <- <-.
    exists [], s. simpl. unfold ret. rewrite !app_nil_r. auto.
  - cbn [seq] in H |- *. rewrite for_layers_cons in H.
    rewrite on_layer_with_last_layer_only in H.
    destruct (on_layer_frame a ([x; A] ++ extra) s) as (_ & Hl & _).
    cbv zeta in Hl.
    destruct (on_layer a (GraphConvolution.__call__ ([x; A] ++ extra)) s)
      as [[y|e] s'] eqn:E; cbn [fst snd] in *; [|discriminate].
    cbn [with_last_layer_only last_layer_only activation gc_layers negb orb] in H.
    apply IH with (outsT :=
      if negb true || (a + 1 =? a + S m) then outsT ++ [y] else outsT) in H;
      [| lia].
    destruct H as (ys & s2 & -> & Hys & -> & Hrun).
    exists (y :: ys), s2. split; [rewrite <- app_assoc; reflexivity|].
    split; [simpl; lia|]. split; [reflexivity|].
    rewrite for_layers_cons, on_layer_with_last_layer_only, E. cbn [fst snd].
    cbn [with_last_layer_only last_layer_only activation gc_layers].
    rewrite Hl, Hlen, <- (@kept_cons _ true y ys m outsT a Hys). exact Hrun.
Qed.

(** X14.  [last_layer_only] changes what [call] hands back and nothing
    else: when the call of the stack with the flag off returns [ys], the
    call with the flag on returns the last of them alone (nothing for an
    empty stack), and the layers are left in the same states. *)
Theorem last_layer_only_selects (self self1 : model R) (inputs ys : list (tensor R)) :
  call inputs (with_last_layer_only false self) = (Ok ys, self1) ->
  call inputs (with_last_layer_only true self)
  = (Ok (kept true ys), with_last_layer_only true self1).
Proof.
  intros H. unfold call, bind, get_self, index in *.
  destruct (nth_error inputs 0) as [x|]; [|discriminate].
  destruct (nth_error inputs 1) as [a|]; [|discriminate].
  cbn [ret with_last_layer_only rooted_subtree gc_layers] in *.
  apply for_layers_policy with (outsT := []) in H; [| reflexivity].
  destruct H as (zs & s2 & -> & _ & -> & Hrun).
  cbn [app] in *. exact Hrun.
Qed.

End StackOutputFacts.

(** * Concrete runs of the further properties *)

Section MoreRuns.
Import GraphConvolution.
#[local] Existing Instance float_utils.

Lemma build_weights_witness :
  kernel full_layer = Some (add_weight [2; 3] (drawn 0) "kernel")
  /\ bias full_layer = Some (add_weight [3] zeros "bias")
  /\ rooted_kernel full_layer
     = Some (add_weight [2; 3] (drawn 0) "rooted_kernel")
  /\ configuration full_layer
     = configuration (__init__ 3 false true linear true (drawn 0) zeros)
  /\ built full_layer = false.
Proof.
  apply (@build_weights float
           (__init__ 3 false true linear true (drawn 0) zeros) full_layer
           [[2; 2]; [2; 2]; [2; 2; 1]] [2; 2]); reflexivity.
Defined.

Lemma build_failure_witness :
  (IndexError = AssertionError
   /\ ~ arity_ok [[2; 2]; [2; 2]; []]
   /\ snd (build [[2; 2]; [2; 2]; []] fresh_layer) = fresh_layer)
  \/ (IndexError = IndexError /\ arity_ok [[2; 2]; [2; 2]; []]
      /\ nth_error [[2; 2]; [2; 2]; []] 0 = Some []
      /\ snd (build [[2; 2]; [2; 2]; []] fresh_layer) = fresh_layer)
  \/ (IndexError = IndexError /\ arity_ok [[2; 2]; [2; 2]; []]
      /\ nth_error [[2; 2]; [2; 2]; []] 2 = Some []
      /\ (exists s0, nth_error [[2; 2]; [2; 2]; []] 0 = Some s0
           /\ kernel (snd (build [[2; 2]; [2; 2]; []] fresh_layer))
              = Some (add_weight [last s0 0; F_ fresh_layer]
                        (kernel_initializer fresh_layer) "kernel"))
      /\ edge_kernel (snd (build [[2; 2]; [2; 2]; []] fresh_layer))
         = edge_kernel fresh_layer).
Proof.
  apply (@build_failure float fresh_layer [[2; 2]; [2; 2]; []] IndexError).
  reflexivity.
Defined.

Lemma call_shape_mismatch_witness :
  call [X2; A3] plain_layer = (Raise InvalidArgumentError, plain_layer)
  /\ call [X_wide; A2] plain_layer = (Raise InvalidArgumentError, plain_layer).
Proof.
  split.
  - apply (proj1 (call_shape_mismatch plain_layer X2 A3 [])) with 3 3 2 2;
      [reflexivity | reflexivity | lia].
  - apply (proj2 (call_shape_mismatch plain_layer X_wide A2 []))
      with (add_weight [2; 3] (drawn 0) "kernel") 2 2 2 3 3;
      [reflexivity | reflexivity | reflexivity | reflexivity | lia].
Defined.

Lemma call_missing_operand_witness :
  call [X2] plain_layer = (Raise IndexError, plain_layer)
  /\ call [X2; A2] fresh_layer = (Raise ValueError, fresh_layer)
  /\ call [X2; A2] full_layer = (Raise IndexError, full_layer).
Proof.
  split; [|split].
  - apply (proj1 (call_missing_operand plain_layer)). simpl. lia.
  - apply (proj1 (proj2 (call_missing_operand fresh_layer))) with 2 2 2;
      reflexivity.
  - apply (proj2 (proj2 (call_missing_operand full_layer)))
      with (add_weight [2; 3] (drawn 0) "kernel")
           (add_weight [1; 3] (drawn 0) "edge_kernel") 2 2 3;
      try reflexivity.
    intros _. split; [|reflexivity].
    exists (add_weight [2; 3] (drawn 0) "rooted_kernel"). split; reflexivity.
Defined.

Lemma call_output_witness :
  exists Y, call [X2; A2; Z2] full_layer = (Ok Y, full_layer)
    /\ shape Y = [2; 3] /\ wf Y
    /\ forall idx, valid [2; 3] idx ->
         get Y idx = spec_output full_layer [X2; A2; Z2] 2 2 idx.
Proof. exact (call_output full_layer_shapes). Defined.

Lemma first_call_witness :
  exists Y self',
    __call__ [X2; A2; Z2] (__init__ 3 true true relu true (drawn 0) zeros)
    = (Ok Y, self')
    /\ shape Y = [2; 3] /\ built self' = true
    /\ well_shaped self' [X2; A2; Z2] 2 2 3
    /\ call [X2; A2; Z2] self' = (Ok Y, self')
    /\ configuration self'
       = configuration (__init__ 3 true true relu true (drawn 0) zeros).
Proof.
  apply (@first_call float _ _ 3 true true relu true (drawn 0) zeros
           X2 A2 [Z2] 2 2).
  - reflexivity.
  - reflexivity.
  - intros _. split; reflexivity.
  - right. exists Z2. split; [reflexivity | right; exists 1; reflexivity].
Defined.

Lemma sentinel_is_no_edge_input_witness :
  __call__ [X2; A2; Z0] fresh_layer = __call__ [X2; A2] fresh_layer
  /\ edge_kernel (snd (__call__ [X2; A2; Z0] fresh_layer)) = None.
Proof.
  apply (sentinel_is_no_edge_input fresh_layer X2 A2 Z0); reflexivity.
Defined.

Lemma stacked_call_again_witness :
  StackedGraphConvolution.call [X2; A2; Z2] (built_stack true)
  = (Ok [Tensor [2; 3] [498; 414; 312; 505; 404; 321]%float], built_stack true).
Proof.
  apply (@stacked_call_again float _ _ (fresh_stack true) (built_stack true)
           [X2; A2; Z2]).
  vm_compute. reflexivity.
Defined.

Lemma outputs_length_witness :
  exists outputs,
    StackedGraphConvolution.call [X2; A2; Z2] (fresh_stack true)
    = (Ok outputs, built_stack true)
    /\ length outputs = 1
    /\ StackedGraphConvolution.vocab_size (built_stack true)
       = (Ok (length outputs), built_stack true).
Proof.
  exists [Tensor [2; 3] [498; 414; 312; 505; 404; 321]%float].
  assert (H : StackedGraphConvolution.call [X2; A2; Z2] (fresh_stack true)
              = (Ok [Tensor [2; 3] [498; 414; 312; 505; 404; 321]%float],
                 built_stack true))
    by (vm_compute; reflexivity).
  split; [exact H|].
  destruct (outputs_length (fresh_stack true) [X2; A2; Z2] H) as [H1 H2].
  split; [exact H1 | apply H2; [reflexivity | simpl; lia]].
Defined.

Lemma stacked_call_arity_witness :
  StackedGraphConvolution.call [X2] (fresh_stack false)
  = (Raise IndexError, fresh_stack false)
  /\ StackedGraphConvolution.call [X2; A2; Z2; Z2] (fresh_stack false)
     = (Raise AssertionError, fresh_stack false).
Proof.
  split.
  - apply (proj1 (stacked_call_arity (fresh_stack false))). simpl. lia.
  - apply (proj2 (stacked_call_arity (fresh_stack false)))
      with (StackedGraphConvolution.new_layer 3 true 0)
           [StackedGraphConvolution.new_layer 3 true 1];
      [reflexivity | reflexivity | simpl; lia].
Defined.

Lemma stacked_sentinel_witness :
  StackedGraphConvolution.call [X2; A2; Z0] (fresh_stack false)
  = StackedGraphConvolution.call [X2; A2] (fresh_stack false).
Proof.
  apply (stacked_sentinel (fresh_stack false) X2 A2 Z0).
  - reflexivity.
  - repeat constructor.
Defined.

Lemma last_layer_only_selects_witness :
  exists ys,
    StackedGraphConvolution.call [X2; A2; Z2]
      (with_last_layer_only false (fresh_stack true))
    = (Ok ys, built_stack false)
    /\ length ys = 2
    /\ StackedGraphConvolution.call [X2; A2; Z2]
         (with_last_layer_only true (fresh_stack true))
       = (Ok (kept true ys), with_last_layer_only true (built_stack false)).
Proof.
  exists (match fst (StackedGraphConvolution.call [X2; A2; Z2] (fresh_stack false))
          with Ok ys => ys | Raise _ => [] end).
  assert (H : StackedGraphConvolution.call [X2; A2; Z2]
                (with_last_layer_only false (fresh_stack true))
              = (Ok (match fst (StackedGraphConvolution.call [X2; A2; Z2]
                                  (fresh_stack false))
                     with Ok ys => ys | Raise _ => [] end),
                 built_stack false))
    by (vm_compute; reflexivity).
  split; [exact H|]. split; [vm_compute; reflexivity|].
  apply (last_layer_only_selects (fresh_stack true) [X2; A2; Z2] H).
Defined.

End MoreRuns.
